(** * CloudBridge: the multi-pane terminal view

    A shallow embedding of the client-side terminal view model of
    [client/src/pages/terminal-management-page.tsx] (and of the functions it
    shares with [client/src/components/terminal/terminal-component.tsx]),
    followed by the properties of the specification that concern it.

    Modelling conventions.
    - The React state [terminalSessions] (a JS [Map] keyed by a string) is a
      [gmap string TerminalSession.t].  Only the order in which [forEach]
      visits the entries is lost; no property below depends on it.
    - A function of the component closes over the [terminalSessions] constant
      of the render that created it.  That constant is the explicit first
      argument [terminalSessions] of every function that reads it, while the
      state cell that the functional updaters [prev => ...] work on is the
      field [sessions] of the [World].
    - A [WebSocket] object is a handle: its index in the list [sockets] of
      every socket constructed so far.  The four callbacks installed on it
      close over the same variables, which are stored with the socket.
    - Calls that leave the component ([send], [close], [toast],
      [setLocation], [setTimeout]) are appended to the trace [effects]. *)

From Stdlib Require Import ZArith NArith Ascii String Lia.
From stdpp Require Import base option list strings gmap fin_maps pretty.

(** ** Data model *)

Module EC2Instance.
(** [interface EC2Instance].  The objects come from the inventory endpoint
    as [any]; [credentialId] is [None] when the property is missing. *)
Record t := mk {
  instanceId : string;
  name : string;
  privateIp : string;
  publicIp : string;
  state : string;
  instanceType : string;
  region : string;
  keyName : string;
  credentialId : option Z;
}.
End EC2Instance.

Module TerminalOutput.
(** [interface TerminalOutput].  [type] is one of "input", "output",
    "error", "system" for the frames the view creates itself and whatever
    string the server sent otherwise; [content] is [None] for the JS value
    [undefined]. *)
Record t := mk {
  timestamp : string;
  type : string;
  content : option string;
  instanceId : option string;
}.
End TerminalOutput.

Module TerminalSession.
(** [interface TerminalSession]; [ws] holds the handle of a socket. *)
Record t := mk {
  instanceId : string;
  instance : EC2Instance.t;
  isConnected : bool;
  output : list TerminalOutput.t;
  currentCommand : string;
  ws : option nat;
  isSelected : bool;
}.

(** The object spreads [{ ...session, field: value }] of the source. *)
Definition with_output (o : list TerminalOutput.t) (s : t) : t :=
  mk (instanceId s) (instance s) (isConnected s) o (currentCommand s) (ws s)
     (isSelected s).
Definition with_connection (w : option nat) (c : bool) (s : t) : t :=
  mk (instanceId s) (instance s) c (output s) (currentCommand s) w
     (isSelected s).
Definition with_currentCommand (c : string) (s : t) : t :=
  mk (instanceId s) (instance s) (isConnected s) (output s) c (ws s)
     (isSelected s).
Definition with_isSelected (b : bool) (s : t) : t :=
  mk (instanceId s) (instance s) (isConnected s) (output s)
     (currentCommand s) (ws s) b.
End TerminalSession.

(** The objects the view passes to [JSON.stringify] and sends. *)
Inductive ClientMessage : Type :=
  | ConnectMsg (host username keyName region : string) (credentialId : Z)
               (instanceId : string)
  | CommandMsg (command instanceId : string).

Module ServerMessage.
(** What [JSON.parse(event.data)] yields; a property that is missing (or is
    not a string) is [None]. *)
Record t := mk {
  instanceId : option string;
  type : option string;
  message : option string;
  data : option string;
}.
End ServerMessage.

Record Toast := mkToast {
  title : string;
  description : string;
  variant : option string;
}.

(** A callback handed to [setTimeout]: the call [connectToInstance(id)] of
    the render whose [terminalSessions] it closes over. *)
Inductive Callback : Type :=
  | ConnectToInstanceCb (terminalSessions : gmap string TerminalSession.t)
                        (instanceId : string).

Inductive Effect : Type :=
  | WsSend (websocket : nat) (msg : ClientMessage)
  | WsClose (websocket : nat)
  | ShowToast (t : Toast)
  | SetLocation (path : string)
  | SetTimeout (cb : Callback) (delay : nat).

Module WebSocket.
(** A socket made by [connectToInstance], with the variables its
    [onopen], [onmessage], [onerror] and [onclose] callbacks close over. *)
Record t := mk {
  url : string;
  instanceId : string;
  session : TerminalSession.t;
  credentialId : Z;
}.
End WebSocket.

Record World := mkWorld {
  sessions : gmap string TerminalSession.t;
  selectAll : bool;
  sockets : list WebSocket.t;
  effects : list Effect;
  clock : N;
}.

(** The browser environment the component runs in. *)
Record Env := mkEnv {
  location_protocol : string;
  location_host : string;
  (** [new URLSearchParams(window.location.search).get('instances')] *)
  params_instances : option string;
  (** [new Date(ms).toLocaleTimeString()] *)
  toLocaleTimeString : N → string;
  (** the exception [new WebSocket(url)] throws, if it throws *)
  webSocket_throws : option string;
}.

(** ** JavaScript helpers *)

(** [s.split(sep)] for a one-character separator. *)
Fixpoint split (sep : Ascii.ascii) (s : string) : list string :=
  match s with
  | EmptyString => [EmptyString]
  | String c rest =>
      if decide (c = sep) then EmptyString :: split sep rest
      else match split sep rest with
           | [] => [String c EmptyString]
           | x :: xs => String c x :: xs
           end
  end.

(** [arr.includes(x)] *)
Definition includes (arr : list string) (x : string) : bool :=
  bool_decide (x ∈ arr).

(** [n || d] on a possibly missing number: 0 and [undefined] are falsy. *)
Definition number_or (n : option Z) (d : Z) : Z :=
  match n with
  | Some v => if decide (v = 0%Z) then d else v
  | None => d
  end.

(** [s || d] on a possibly missing string: "" and [undefined] are falsy. *)
Definition string_or (s : option string) (d : option string) : option string :=
  match s with
  | Some v => if decide (v = "") then d else Some v
  | None => d
  end.

(** ** State transformers *)

Definition Action : Type := World → World.

Definition andThen (a b : Action) : Action := λ w, b (a w).
Infix ">>>" := andThen (at level 61, left associativity).

Definition skip : Action := λ w, w.

(** [setTerminalSessions(prev => ...)] *)
Definition setTerminalSessions
    (updater : gmap string TerminalSession.t → gmap string TerminalSession.t)
    : Action :=
  λ w, mkWorld (updater (sessions w)) (selectAll w) (sockets w) (effects w)
               (clock w).

Definition perform (e : Effect) : Action :=
  λ w, mkWorld (sessions w) (selectAll w) (sockets w) (effects w ++ [e])
               (clock w).

Definition toast (t : Toast) : Action := perform (ShowToast t).

(** [new WebSocket(url)] followed by the assignment of the four callbacks;
    the new handle is [length (sockets w)]. *)
Definition newWebSocket (sock : WebSocket.t) : Action :=
  λ w, mkWorld (sessions w) (selectAll w) (sockets w ++ [sock]) (effects w)
               (clock w).

(** [m.forEach(session => f(session))] *)
Definition forEach (f : TerminalSession.t → Action)
    (m : gmap string TerminalSession.t) : Action :=
  λ w, foldl (λ w' kv, f kv.2 w') w (map_to_list m).

(** [arr.forEach(x => f(x))] *)
Definition forEachArr {A : Type} (f : A → Action) (arr : list A) : Action :=
  λ w, foldl (λ w' x, f x w') w arr.

(** The environment advancing the clock by [d] milliseconds. *)
Definition tick (d : N) : Action :=
  λ w, mkWorld (sessions w) (selectAll w) (sockets w) (effects w)
               (clock w + d)%N.

(** ** [pages/terminal-management-page.tsx] *)

Module TerminalManagementPage.
Section WithEnv.
Context (env : Env).

Definition addOutput (instanceId type : string) (content : option string)
    : Action :=
  λ w, setTerminalSessions (λ prev,
         match prev !! instanceId with
         | Some session =>
             let newOutput :=
               TerminalSession.output session ++
               [TerminalOutput.mk (toLocaleTimeString env (clock w)) type
                                  content (Some instanceId)] in
             <[instanceId := TerminalSession.with_output newOutput session]> prev
         | None => prev
         end) w.

(** The updater shared by [onerror], [onclose] and [disconnectSelected]:
    [{ ...currentSession, isConnected: false, ws: null }]. *)
Definition clearConnection (instanceId : string) : Action :=
  setTerminalSessions (λ prev,
    match prev !! instanceId with
    | Some currentSession =>
        <[instanceId :=
            TerminalSession.with_connection None false currentSession]> prev
    | None => prev
    end).

Definition wsUrl : string :=
  (if decide (location_protocol env = "https:") then "wss:" else "ws:")
  +:+ "//" +:+ location_host env +:+ "/ssh-ws".

(** [websocket.onopen], with the variables it closes over as arguments. *)
Definition onopen (websocket : nat) (instanceId : string)
    (session : TerminalSession.t) (credentialId : Z) : Action :=
  let instance := TerminalSession.instance session in
  setTerminalSessions (λ prev,
    match prev !! instanceId with
    | Some currentSession =>
        <[instanceId :=
            TerminalSession.with_connection (Some websocket) true
              currentSession]> prev
    | None => prev
    end)
  >>> addOutput instanceId "system"
        (Some ("Connected to " +:+ EC2Instance.name instance +:+ " (" +:+
               EC2Instance.privateIp instance +:+ ")"))
  >>> perform (WsSend websocket
        (ConnectMsg (EC2Instance.privateIp instance) "ec2-user"
                    (EC2Instance.keyName instance)
                    (EC2Instance.region instance) credentialId instanceId)).

(** [websocket.onmessage]; [data] is [None] when [JSON.parse(event.data)]
    throws or yields no object, and the callback ends there. *)
Definition onmessage (instanceId : string) (data : option ServerMessage.t)
    : Action :=
  match data with
  | None => skip
  | Some data =>
      if decide (ServerMessage.instanceId data = Some instanceId) then
        addOutput instanceId
          (default "output" (string_or (ServerMessage.type data) None))
          (string_or (ServerMessage.message data) (ServerMessage.data data))
      else skip
  end.

Definition onerror (instanceId : string) : Action :=
  addOutput instanceId "error" (Some "WebSocket connection error")
  >>> clearConnection instanceId.

Definition onclose (instanceId : string) : Action :=
  addOutput instanceId "system" (Some "Connection closed")
  >>> clearConnection instanceId.

Definition connectToInstance
    (terminalSessions : gmap string TerminalSession.t) (instanceId : string)
    : Action :=
  match terminalSessions !! instanceId with
  | None =>
      toast (mkToast "Connection error" "Terminal session not found"
                     (Some "destructive"))
  | Some session =>
      (* Use the credentialId from the instance, defaulting to 1 *)
      let credentialId :=
        number_or (EC2Instance.credentialId (TerminalSession.instance session))
                  1 in
      match webSocket_throws env with
      | None =>
          newWebSocket (WebSocket.mk wsUrl instanceId session credentialId)
      | Some error =>
          addOutput instanceId "error" (Some ("Failed to connect: " +:+ error))
      end
  end.

Definition sendCommand
    (terminalSessions : gmap string TerminalSession.t)
    (instanceId command : string) : Action :=
  match terminalSessions !! instanceId with
  | Some session =>
      match TerminalSession.ws session with
      | Some ws =>
          if TerminalSession.isConnected session then
            addOutput instanceId "input" (Some ("$ " +:+ command))
            >>> perform (WsSend ws (CommandMsg command instanceId))
            >>> setTerminalSessions (λ prev,
                  match prev !! instanceId with
                  | Some currentSession =>
                      <[instanceId :=
                          TerminalSession.with_currentCommand ""
                            currentSession]> prev
                  | None => prev
                  end)
          else skip
      | None => skip
      end
  | None => skip
  end.

(** The identifier [`${instanceId}_duplicate_${Date.now()}`]. *)
Definition duplicateId (instanceId : string) (now : N) : string :=
  instanceId +:+ "_duplicate_" +:+ pretty now.

Definition duplicateSession
    (terminalSessions : gmap string TerminalSession.t) (instanceId : string)
    : Action :=
  λ w,
  match terminalSessions !! instanceId with
  | None => w
  | Some session =>
      let newInstanceId := duplicateId instanceId (clock w) in
      let newSession :=
        TerminalSession.mk newInstanceId (TerminalSession.instance session)
                           false [] "" None false in
      (setTerminalSessions (λ prev, <[newInstanceId := newSession]> prev)
       >>> perform (SetTimeout
                      (ConnectToInstanceCb terminalSessions newInstanceId) 500)
       >>> toast (mkToast "Session duplicated"
                    ("Created duplicate session for " +:+
                     EC2Instance.name (TerminalSession.instance session))
                    None)) w
  end.

(** [selectAll] is the constant of the render, like [terminalSessions]. *)
Definition toggleSelectAll (selectAll : bool) : Action :=
  λ w,
  let newSelectAll := negb selectAll in
  mkWorld (TerminalSession.with_isSelected newSelectAll <$> sessions w)
          newSelectAll (sockets w) (effects w) (clock w).

Definition toggleTerminalSelection (instanceId : string) : Action :=
  setTerminalSessions (λ prev,
    match prev !! instanceId with
    | Some session =>
        <[instanceId :=
            TerminalSession.with_isSelected
              (negb (TerminalSession.isSelected session)) session]> prev
    | None => prev
    end).

Definition disconnectSelected
    (terminalSessions : gmap string TerminalSession.t) : Action :=
  let selectedSessions :=
    filter (λ session, TerminalSession.isSelected session = true ∧
                       TerminalSession.isConnected session = true)
           (map_to_list terminalSessions).*2 in
  if decide (length selectedSessions = 0) then
    toast (mkToast "No terminals selected"
                   "Please select connected terminals to disconnect"
                   (Some "destructive"))
  else
    forEachArr (λ session,
        match TerminalSession.ws session with
        | Some ws => perform (WsClose ws)
        | None => skip
        end
        >>> setTerminalSessions (λ prev,
              match prev !! TerminalSession.instanceId session with
              | Some currentSession =>
                  <[TerminalSession.instanceId session :=
                      TerminalSession.with_connection None false
                        currentSession]> prev
              | None => prev
              end))
      selectedSessions
    >>> toast (mkToast "Terminals disconnected"
                 ("Disconnected " +:+ pretty (length selectedSessions) +:+
                  " terminal(s)") None).

(** [if (session.ws) session.ws.close()] *)
Definition closeSocket (session : TerminalSession.t) : Action :=
  match TerminalSession.ws session with
  | Some ws => perform (WsClose ws)
  | None => skip
  end.

Definition closeTerminal
    (terminalSessions : gmap string TerminalSession.t) (instanceId : string)
    : Action :=
  match terminalSessions !! instanceId with
  | Some session => closeSocket session
  | None => skip
  end
  >>> setTerminalSessions (λ prev, delete instanceId prev).

Definition exitTerminals (terminalSessions : gmap string TerminalSession.t)
    : Action :=
  forEach closeSocket terminalSessions
  >>> perform (SetLocation "/")
  >>> toast (mkToast "Terminals closed"
               "All terminal sessions have been closed" None).

(** [handleFileUpload], for a chosen file named [fileName]. *)
Definition handleFileUpload
    (terminalSessions : gmap string TerminalSession.t) (fileName : string)
    : Action :=
  let connectedSessions :=
    filter (λ session, TerminalSession.isConnected session = true)
           (map_to_list terminalSessions).*2 in
  if decide (length connectedSessions = 0) then
    toast (mkToast "No connected terminals"
                   "Please wait for terminals to connect before uploading files"
                   (Some "destructive"))
  else
    let uploadCommand := "scp " +:+ fileName +:+ " ./" in
    forEachArr (λ session,
        addOutput (TerminalSession.instanceId session) "system"
                  (Some ("Uploading " +:+ fileName +:+ "..."))
        >>> sendCommand terminalSessions (TerminalSession.instanceId session)
                        uploadCommand)
      connectedSessions
    >>> toast (mkToast "File upload initiated"
                 ("Uploading " +:+ fileName +:+ " to " +:+
                  pretty (length connectedSessions) +:+ " terminal(s)") None).

(** The cleanup function returned by the effect with the dependency list
    [[]]; [terminalSessions] is the constant of the render that ran the
    effect. *)
Definition unmountCleanup (terminalSessions : gmap string TerminalSession.t)
    : Action :=
  forEach closeSocket terminalSessions.

(** The identifiers of the launch parameter:
    [params.get('instances')?.split(',') || []]. *)
Definition instanceIds : list string :=
  match params_instances env with
  | Some s => split ","%char s
  | None => []
  end.

Definition selectedInstances (allInstances : list EC2Instance.t)
    : list EC2Instance.t :=
  filter (λ inst, includes instanceIds (EC2Instance.instanceId inst) = true)
         allInstances.

Definition initialSession (instance : EC2Instance.t) : TerminalSession.t :=
  TerminalSession.mk (EC2Instance.instanceId instance) instance false [] ""
                     None false.

Definition initialSessions (selected : list EC2Instance.t)
    : gmap string TerminalSession.t :=
  foldl (λ newSessions instance,
           <[EC2Instance.instanceId instance := initialSession instance]>
             newSessions)
        ∅ selected.

(** The effect that initializes the view from the launch parameter, run with
    the dependency [allInstances]. *)
Definition initEffect
    (terminalSessions : gmap string TerminalSession.t)
    (allInstances : list EC2Instance.t) : Action :=
  if bool_decide (0 < length instanceIds ∧ 0 < length allInstances) then
    let selected := selectedInstances allInstances in
    setTerminalSessions (λ _, initialSessions selected)
    >>> forEachArr (λ instance,
          perform (SetTimeout
                     (ConnectToInstanceCb terminalSessions
                        (EC2Instance.instanceId instance)) 500))
          selected
  else skip.

(** A timer firing. *)
Definition runCallback (cb : Callback) : Action :=
  match cb with
  | ConnectToInstanceCb terminalSessions instanceId =>
      connectToInstance terminalSessions instanceId
  end.

(** An event of the socket [websocket] reaching the callback installed for
    it. *)
Inductive WsEvent : Type :=
  | Open
  | Message (data : option ServerMessage.t)
  | Error
  | Close.

Definition dispatch (websocket : nat) (ev : WsEvent) : Action :=
  λ w,
  match sockets w !! websocket with
  | None => w
  | Some sock =>
      match ev with
      | Open =>
          onopen websocket (WebSocket.instanceId sock) (WebSocket.session sock)
                 (WebSocket.credentialId sock) w
      | Message data => onmessage (WebSocket.instanceId sock) data w
      | Error => onerror (WebSocket.instanceId sock) w
      | Close => onclose (WebSocket.instanceId sock) w
      end
  end.

End WithEnv.
End TerminalManagementPage.

(** ** [components/terminal/terminal-component.tsx]

    The single-instance view.  Its [EC2Instance] and [TerminalSession]
    interfaces declare neither [credentialId] nor [isSelected]; the component
    never reads these fields, and the records above are used with
    [isSelected] left [false]. *)

Module TerminalComponent.
Section WithProps.
Context (env : Env).
(** The props [{ instances, credentialId }]; [credentialId] is optional. *)
Context (instances : list EC2Instance.t) (credentialId : option Z).

Definition initEffect : Action :=
  setTerminalSessions (λ _,
    foldl (λ newSessions instance,
             <[EC2Instance.instanceId instance :=
                 TerminalSession.mk (EC2Instance.instanceId instance) instance
                                    false [] "" None false]> newSessions)
          ∅ instances).

Definition addOutput (instanceId type : string) (content : option string)
    : Action :=
  λ w, setTerminalSessions (λ prev,
         match prev !! instanceId with
         | Some session =>
             let newOutput :=
               TerminalSession.output session ++
               [TerminalOutput.mk (toLocaleTimeString env (clock w)) type
                                  content (Some instanceId)] in
             <[instanceId := TerminalSession.with_output newOutput session]> prev
         | None => prev
         end) w.

Definition clearConnection (instanceId : string) : Action :=
  setTerminalSessions (λ prev,
    match prev !! instanceId with
    | Some currentSession =>
        <[instanceId :=
            TerminalSession.with_connection None false currentSession]> prev
    | None => prev
    end).

Definition wsUrl : string :=
  (if decide (location_protocol env = "https:") then "wss:" else "ws:")
  +:+ "//" +:+ location_host env.

Definition onopen (websocket : nat) (instanceId : string)
    (session : TerminalSession.t) (credentialId : Z) : Action :=
  let instance := TerminalSession.instance session in
  setTerminalSessions (λ prev,
    match prev !! instanceId with
    | Some currentSession =>
        <[instanceId :=
            TerminalSession.with_connection (Some websocket) true
              currentSession]> prev
    | None => prev
    end)
  >>> addOutput instanceId "system"
        (Some ("Connecting to " +:+ EC2Instance.name instance +:+ " (" +:+
               EC2Instance.privateIp instance +:+ ")..."))
  >>> perform (WsSend websocket
        (ConnectMsg (EC2Instance.privateIp instance) "ec2-user"
                    (EC2Instance.keyName instance)
                    (EC2Instance.region instance) credentialId instanceId))
  >>> toast (mkToast "Connecting..."
               ("Establishing SSH connection to " +:+
                EC2Instance.name instance) None).

Definition onmessage (instanceId : string) (data : option ServerMessage.t)
    : Action :=
  match data with
  | None => skip
  | Some data =>
      if decide (ServerMessage.instanceId data = Some instanceId) then
        addOutput instanceId
          (default "output" (string_or (ServerMessage.type data) None))
          (string_or (ServerMessage.message data) (ServerMessage.data data))
      else skip
  end.

Definition onerror (instanceId : string) : Action :=
  addOutput instanceId "error" (Some "WebSocket connection error")
  >>> clearConnection instanceId.

Definition onclose (instanceId : string) : Action :=
  addOutput instanceId "system" (Some "Connection closed")
  >>> clearConnection instanceId.

Definition connectToInstance
    (terminalSessions : gmap string TerminalSession.t) (instanceId : string)
    : Action :=
  let missing :=
    toast (mkToast "Connection error" "Missing session or credentials"
                   (Some "destructive")) in
  match terminalSessions !! instanceId with
  | None => missing
  | Some session =>
      match credentialId with
      | None => missing
      | Some cred =>
          if decide (cred = 0%Z) then missing
          else
            match webSocket_throws env with
            | None => newWebSocket (WebSocket.mk wsUrl instanceId session cred)
            | Some error =>
                addOutput instanceId "error"
                          (Some ("Failed to connect: " +:+ error))
            end
      end
  end.

Definition disconnectFromInstance
    (terminalSessions : gmap string TerminalSession.t) (instanceId : string)
    : Action :=
  match terminalSessions !! instanceId with
  | Some session =>
      match TerminalSession.ws session with
      | Some ws => perform (WsClose ws)
      | None => skip
      end
  | None => skip
  end
  >>> clearConnection instanceId.

Definition sendCommand
    (terminalSessions : gmap string TerminalSession.t)
    (instanceId command : string) : Action :=
  match terminalSessions !! instanceId with
  | Some session =>
      match TerminalSession.ws session with
      | Some ws =>
          if TerminalSession.isConnected session then
            addOutput instanceId "input" (Some ("$ " +:+ command))
            >>> perform (WsSend ws (CommandMsg command instanceId))
            >>> setTerminalSessions (λ prev,
                  match prev !! instanceId with
                  | Some currentSession =>
                      <[instanceId :=
                          TerminalSession.with_currentCommand ""
                            currentSession]> prev
                  | None => prev
                  end)
          else skip
      | None => skip
      end
  | None => skip
  end.

Definition updateCommand (instanceId command : string) : Action :=
  setTerminalSessions (λ prev,
    match prev !! instanceId with
    | Some currentSession =>
        <[instanceId :=
            TerminalSession.with_currentCommand command currentSession]> prev
    | None => prev
    end).

End WithProps.
End TerminalComponent.

(** ** Vocabulary of the properties *)

(** The sessions of a registry that hold a transport. *)
Definition openSessions (m : gmap string TerminalSession.t)
    : gmap string TerminalSession.t :=
  filter (λ kv, is_Some (TerminalSession.ws kv.2)) m.

(** The sockets [close()] was called on, once per call, in trace order. *)
Definition closeCalls (tr : list Effect) : list nat :=
  omap (λ e, match e with WsClose h => Some h | _ => None end) tr.

(** The messages sent, with the socket each was sent on. *)
Definition sendCalls (tr : list Effect) : list (nat * ClientMessage) :=
  omap (λ e, match e with WsSend h m => Some (h, m) | _ => None end) tr.

(** The toasts shown. *)
Definition toasts (tr : list Effect) : list Toast :=
  omap (λ e, match e with ShowToast t => Some t | _ => None end) tr.

(** The identifiers [connectToInstance] was scheduled for. *)
Definition scheduledConnects (tr : list Effect) : list string :=
  omap (λ e, match e with
             | SetTimeout (ConnectToInstanceCb _ i) _ => Some i
             | _ => None
             end) tr.

(** The frames of type "error" in a log. *)
Definition errorFrames (log : list TerminalOutput.t) : list TerminalOutput.t :=
  filter (λ f, TerminalOutput.type f = "error") log.

(** The output log of a session of the registry, if there is one. *)
Definition logOf (m : gmap string TerminalSession.t) (instanceId : string)
    : option (list TerminalOutput.t) :=
  TerminalSession.output <$> m !! instanceId.

(** The sockets held by the sessions of a registry, as [forEach] meets
    them. *)
Definition openSockets (m : gmap string TerminalSession.t) : list nat :=
  omap (λ kv, TerminalSession.ws kv.2) (map_to_list m).

(** The updater pattern of the source: [get] an entry and, if it is there,
    [set] it to [f] of itself. *)
Definition updateAt {V : Type} (i : string) (f : V → V) (m : gmap string V)
    : gmap string V :=
  match m !! i with
  | Some v => <[i := f v]> m
  | None => m
  end.

(** The frame [addOutput] builds in the world [w]. *)
Definition frame (env : Env) (w : World) (type : string)
    (content : option string) (i : string) : TerminalOutput.t :=
  TerminalOutput.mk (toLocaleTimeString env (clock w)) type content (Some i).

Definition appendFrame (fr : TerminalOutput.t) (s : TerminalSession.t)
    : TerminalSession.t :=
  TerminalSession.with_output (TerminalSession.output s ++ [fr]) s.

(** ** The view as a transition system *)

Definition initialWorld (now : N) : World := mkWorld ∅ false [] [] now.

(** One step: an effect run, a timer firing, a socket event, a user action or
    the clock advancing.  The render a handler belongs to is left open:
    [terminalSessions] ranges over every registry. *)
Inductive step (env : Env) : World → World → Prop :=
  | step_initEffect ts allInstances w :
      step env w (TerminalManagementPage.initEffect env ts allInstances w)
  | step_timer cb w :
      step env w (TerminalManagementPage.runCallback env cb w)
  | step_socket h ev w :
      step env w (TerminalManagementPage.dispatch env h ev w)
  | step_sendCommand ts i c w :
      step env w (TerminalManagementPage.sendCommand env ts i c w)
  | step_toggleSelectAll b w :
      step env w (TerminalManagementPage.toggleSelectAll b w)
  | step_toggleTerminalSelection i w :
      step env w (TerminalManagementPage.toggleTerminalSelection i w)
  | step_disconnectSelected ts w :
      step env w (TerminalManagementPage.disconnectSelected ts w)
  | step_duplicateSession ts i w :
      step env w (TerminalManagementPage.duplicateSession ts i w)
  | step_closeTerminal ts i w :
      step env w (TerminalManagementPage.closeTerminal ts i w)
  | step_exitTerminals ts w :
      step env w (TerminalManagementPage.exitTerminals ts w)
  | step_handleFileUpload ts f w :
      step env w (TerminalManagementPage.handleFileUpload env ts f w)
  | step_unmountCleanup ts w :
      step env w (TerminalManagementPage.unmountCleanup ts w)
  | step_tick d w :
      step env w (tick d w).

Definition reachable (env : Env) (w : World) : Prop :=
  ∃ now, rtc (step env) (initialWorld now) w.

(** Every session that holds a socket holds one whose callbacks were
    installed for that very session. *)
Definition ownSockets (w : World) : Prop :=
  ∀ i s h,
    sessions w !! i = Some s → TerminalSession.ws s = Some h →
    ∃ sock, sockets w !! h = Some sock ∧ WebSocket.instanceId sock = i.

(** An action that constructs sockets at most, and gives no session a socket
    it did not hold before. *)
Definition keepsSockets (a : Action) : Prop :=
  ∀ w,
    sockets w `prefix_of` sockets (a w) ∧
    ∀ i s', sessions (a w) !! i = Some s' →
      TerminalSession.ws s' = None ∨
      ∃ s, sessions w !! i = Some s ∧
           TerminalSession.ws s' = TerminalSession.ws s.

(** All sessions that hold a socket hold the same one. *)
Definition sharesOneChannel (w : World) : Prop :=
  ∀ i j si sj hi hj,
    sessions w !! i = Some si → sessions w !! j = Some sj →
    TerminalSession.ws si = Some hi → TerminalSession.ws sj = Some hj →
    hi = hj.

(** The view reports an error about session [i] between [w] and [w']: it
    shows a toast or appends a frame of type "error" to the log of [i], the
    two ways in which [connectToInstance] reports its own failures. *)
Definition reportsError (i : string) (w w' : World) : Prop :=
  toasts (effects w') ≠ toasts (effects w) ∨
  errorFrames <$> logOf (sessions w') i ≠ errorFrames <$> logOf (sessions w) i.

(** ** A concrete run

    Two targets of different accounts and regions, opened from the launch
    parameter [instances=i-1,i-2]; the first carries no [credentialId]. *)

Module Run.
Import TerminalManagementPage.

Definition env : Env :=
  mkEnv "https:" "bridge.example" (Some "i-1,i-2") (λ ms, pretty ms) None.

Definition web : EC2Instance.t :=
  EC2Instance.mk "i-1" "web" "10.0.0.1" "" "running" "t3.micro" "us-east-1"
                 "key-a" None.

Definition db : EC2Instance.t :=
  EC2Instance.mk "i-2" "db" "10.0.0.2" "" "running" "t3.micro" "eu-west-1"
                 "key-b" (Some 7%Z).

(** The inventory has arrived and the effect has run. *)
Definition started : World := initEffect env ∅ [web; db] (initialWorld 1000).

(** Both sessions were connected from the next render. *)
Definition connecting : World :=
  (connectToInstance env (sessions started) "i-1"
   >>> connectToInstance env (sessions started) "i-2") started.

(** Both sockets have opened. *)
Definition streaming : World :=
  (dispatch env 0 Open >>> dispatch env 1 Open) connecting.

(** The same launch with an identifier the inventory does not know. *)
Definition envUnknown : Env :=
  mkEnv "https:" "bridge.example" (Some "i-1,i-9") (λ ms, pretty ms) None.

Definition startedUnknown : World :=
  initEffect envUnknown ∅ [web; db] (initialWorld 1000).

(** The operator duplicates the first pane twice within one millisecond. *)
Definition duplicatedTwice : World :=
  (duplicateSession (sessions streaming) "i-1"
   >>> duplicateSession (sessions streaming) "i-1") streaming.

End Run.

(** ** The rest of the views

    The functions of the two terminal views that render or react to the
    keyboard, the page that hosts the single-instance view, and the
    handlers of [components/tabs/ssh-tab.tsx] that launch the terminal
    view. *)

(** [Math.ceil(n / 2)] for an array length [n]. *)
Definition ceilHalf (n : nat) : nat := n / 2 + n mod 2.

(** [Array.prototype.join] on an array of strings. *)
Fixpoint join (sep : string) (arr : list string) : string :=
  match arr with
  | [] => ""
  | [x] => x
  | x :: rest => x +:+ sep +:+ join sep rest
  end.

(** [!n] on a possibly missing number. *)
Definition isFalsy (n : option Z) : bool :=
  match n with
  | Some v => bool_decide (v = 0%Z)
  | None => true
  end.

(** The panes a view puts on the screen. *)
Inductive Layout : Type :=
  | NoTerminals
  | Single (panel : option TerminalSession.t)
  | Horizontal (left right : option TerminalSession.t)
  | Grid (top bottom : list TerminalSession.t).

(** The sessions a layout shows, left to right and top to bottom. *)
Definition panels (l : Layout) : list TerminalSession.t :=
  match l with
  | NoTerminals => []
  | Single p => option_list p
  | Horizontal a b => option_list a ++ option_list b
  | Grid top bottom => top ++ bottom
  end.

Module TerminalManagementPageView.

(** [Array.from(terminalSessions.values())] *)
Definition sessionsOf (terminalSessions : gmap string TerminalSession.t)
    : list TerminalSession.t :=
  (map_to_list terminalSessions).*2.

(** [sessions.filter(s => s.isSelected).length] *)
Definition selectedCount (sessions : list TerminalSession.t) : nat :=
  length (filter (λ s, TerminalSession.isSelected s = true) sessions).

(** The panel area of the page, once the inventory query has settled. *)
Definition layout (sessions : list TerminalSession.t) : Layout :=
  match sessions with
  | [] => NoTerminals
  | [s0] => Single (Some s0)
  | [s0; s1] => Horizontal (Some s0) (Some s1)
  | _ =>
      Grid (take (ceilHalf (length sessions)) sessions)
           (drop (ceilHalf (length sessions)) sessions)
  end.

End TerminalManagementPageView.

Module TerminalComponentView.

(** The body of the component: it branches on the length of the [instances]
    prop and shows what the registry holds. *)
Definition layout (instances : list EC2Instance.t)
    (terminalSessions : gmap string TerminalSession.t) : Layout :=
  let sessions := (map_to_list terminalSessions).*2 in
  match instances with
  | [instance] =>
      Single (terminalSessions !! EC2Instance.instanceId instance)
  | [_; _] => Horizontal (sessions !! 0) (sessions !! 1)
  | _ =>
      Grid (take (ceilHalf (length sessions)) sessions)
           (drop (ceilHalf (length sessions)) sessions)
  end.

(** [handleKeyPress], for the key [key] of the event. *)
Definition handleKeyPress (env : Env)
    (terminalSessions : gmap string TerminalSession.t)
    (instanceId key : string) : Action :=
  if decide (key = "Enter") then
    match terminalSessions !! instanceId with
    | Some session =>
        TerminalComponent.sendCommand env terminalSessions instanceId
          (TerminalSession.currentCommand session)
    | None => skip
    end
  else skip.

End TerminalComponentView.

(** [pages/terminal-page.tsx]: the page that hosts the single-instance
    view. *)
Module TerminalPage.

Inductive View : Type :=
  | MissingParameters
  | Loading
  | InstanceNotFound (instanceId : string)
  | Terminal (instances : list EC2Instance.t) (credentialId : option Z).

(** [parseInt] is the built-in of the browser; [None] is [NaN].  The
    arguments [instanceId] and [credentialId] are what [params.get] returns
    for the two query parameters. *)
Definition TerminalPage (parseInt : string → option Z)
    (instanceId credentialId : option string) (isLoading : bool)
    (instances : list EC2Instance.t) : View :=
  match string_or instanceId None, string_or credentialId None with
  | Some instanceId, Some credentialId =>
      if isLoading then Loading
      else
        match head (filter (λ inst, EC2Instance.instanceId inst = instanceId)
                           instances) with
        | Some instance => Terminal [instance] (parseInt credentialId)
        | None => InstanceNotFound instanceId
        end
  | _, _ => MissingParameters
  end.

End TerminalPage.

(** [components/tabs/ssh-tab.tsx]: the selection of targets and the launch
    of the terminal view.  Of an instance the handlers read [instanceId] and
    [credentialId] only. *)
Module SSHTab.

Inductive Outcome : Type :=
  | Refused (t : Toast)
  | Launched (href : string) (t : Toast).

Definition instancesToConnect (instances : list EC2Instance.t)
    (selectedInstances : gset string) : list EC2Instance.t :=
  filter (λ instance, EC2Instance.instanceId instance ∈ selectedInstances)
         instances.

(** [handleConnect]: a refusal is a toast and nothing else; a launch assigns
    [window.location.href] and then shows a toast. *)
Definition handleConnect (instances : list EC2Instance.t)
    (selectedInstances : gset string) : Outcome :=
  let toConnect := instancesToConnect instances selectedInstances in
  if decide (length toConnect = 0) then
    Refused (mkToast "No instances selected"
                     "Please select at least one instance to connect."
                     (Some "destructive"))
  else
    let instancesWithoutCredentials :=
      filter (λ instance, isFalsy (EC2Instance.credentialId instance) = true)
             toConnect in
    if decide (0 < length instancesWithoutCredentials) then
      Refused (mkToast "Missing credentials"
                       "Some instances don't have associated AWS credentials."
                       (Some "destructive"))
    else
      let instanceIds := join "," (EC2Instance.instanceId <$> toConnect) in
      Launched ("/terminal-management?instances=" +:+ instanceIds)
               (mkToast "Opening terminal management"
                        ("Connecting to " +:+ pretty (length toConnect) +:+
                         " instance(s).") None).

End SSHTab.

(** ** Vocabulary of the further properties *)


(** The body of the loop of [handleFileUpload], for the file [fileName]. *)
Definition uploadOne (env : Env)
    (terminalSessions : gmap string TerminalSession.t) (fileName : string)
    (session : TerminalSession.t) : Action :=
  TerminalManagementPage.addOutput env (TerminalSession.instanceId session)
    "system" (Some ("Uploading " +:+ fileName +:+ "..."))
  >>> TerminalManagementPage.sendCommand env terminalSessions
        (TerminalSession.instanceId session) ("scp " +:+ fileName +:+ " ./").

(** What [sendCommand] sends from the render [terminalSessions]. *)
Definition commandSent (terminalSessions : gmap string TerminalSession.t)
    (instanceId command : string) : list Effect :=
  match terminalSessions !! instanceId with
  | Some session =>
      match TerminalSession.ws session with
      | Some ws =>
          if TerminalSession.isConnected session
          then [WsSend ws (CommandMsg command instanceId)] else []
      | None => []
      end
  | None => []
  end.

(** An action that constructs only sockets of which [Q] holds. *)
Definition constructsOnly (Q : WebSocket.t → Prop) (a : Action) : Prop :=
  ∀ w, ∃ l, sockets (a w) = sockets w ++ l ∧ Forall Q l.


(** [P] holds of every session of the registry, under its key. *)
Definition sessionsAll (P : string → TerminalSession.t → Prop) (w : World)
    : Prop :=
  ∀ i s, sessions w !! i = Some s → P i s.

(** A property of a registered session that each way in which the page
    makes or rewrites an entry keeps. *)
Record SessionInvariant (P : string → TerminalSession.t → Prop) : Prop := {
  inv_initial : ∀ inst,
    P (EC2Instance.instanceId inst)
      (TerminalManagementPage.initialSession inst);
  inv_duplicate : ∀ i inst,
    P i (TerminalSession.mk i inst false [] "" None false);
  inv_frame : ∀ i s fr,
    TerminalOutput.instanceId fr = Some i → P i s → P i (appendFrame fr s);
  inv_open : ∀ i s h,
    P i s → P i (TerminalSession.with_connection (Some h) true s);
  inv_clear : ∀ i s,
    P i s → P i (TerminalSession.with_connection None false s);
  inv_sent : ∀ i s, P i s → P i (TerminalSession.with_currentCommand "" s);
  inv_select : ∀ i s b, P i s → P i (TerminalSession.with_isSelected b s);
}.

(** An action that keeps [P] on the whole registry. *)
Definition keeps (P : string → TerminalSession.t → Prop) (a : Action)
    : Prop :=
  ∀ w, sessionsAll P w → sessionsAll P (a w).

(** The registry a component has in its first render:
    [useState(new Map())]. *)
Definition firstRender : gmap string TerminalSession.t := ∅.

(** The callbacks an action handed to [setTimeout]. *)
Definition timers (tr : list Effect) : list Callback :=
  omap (λ e, match e with SetTimeout cb _ => Some cb | _ => None end) tr.

(** The operator duplicates the first pane of the run and, from the next
    render and within the same millisecond, duplicates it once more. *)
Definition duplicatedOnce : World :=
  TerminalManagementPage.duplicateSession
    (sessions Run.streaming) "i-1" Run.streaming.

Definition duplicatedAgain : World :=
  TerminalManagementPage.duplicateSession
    (sessions duplicatedOnce) "i-1" duplicatedOnce.

(** ** [useEffect]

    React runs an effect after the first render of a component and after
    every later render whose dependency array differs from the one of the
    render before it.  The cleanup that is pending when the component
    unmounts is the one returned by the latest run, and it closes over the
    constants of the render of that run. *)
Section UseEffect.
Context {Render Dep : Type} `{EqDecision Dep}.

(** The render of the latest run of an effect after the renders [later]:
    [ran] is the render of its latest run so far, [prev] the render before
    [later]. *)
Fixpoint latestRun (deps : Render → list Dep) (ran prev : Render)
    (later : list Render) : Render :=
  match later with
  | [] => ran
  | r :: rest =>
      if decide (deps r = deps prev)
      then latestRun deps ran r rest
      else latestRun deps r r rest
  end.

(** [useEffect(effect, deps)] over the renders [first :: later] of a
    component: the render whose cleanup is pending at the end. *)
Definition useEffect (deps : Render → list Dep) (first : Render)
    (later : list Render) : Render :=
  latestRun deps first first later.

End UseEffect.

(** The page unmounts after its first render and the renders [later], each
    given by its [terminalSessions] constant.  The effect that returns the
    cleanup has the dependency array [[]]. *)
Definition unmount (later : list (gmap string TerminalSession.t)) : Action :=
  TerminalManagementPage.unmountCleanup
    (useEffect (λ _, @nil ()) firstRender later).

(** * Properties *)

(** ** The updater pattern *)

Section Updaters.
Context {V : Type}.
Implicit Types (m : gmap string V) (f : V → V).

Lemma updateAt_lookup i f m j :
  updateAt i f m !! j = if decide (i = j) then f <$> m !! j else m !! j.
Proof.
  unfold updateAt. destruct (decide (i = j)) as [->|Hne].
  - destruct (m !! j) eqn:E; [by rewrite lookup_insert_eq | by rewrite E].
  - destruct (m !! i); [by rewrite lookup_insert_ne | done].
Qed.

Lemma updateAt_lookup_eq i f m : updateAt i f m !! i = f <$> m !! i.
Proof. rewrite updateAt_lookup. by rewrite decide_True. Qed.

Lemma updateAt_lookup_ne i f m j : i ≠ j → updateAt i f m !! j = m !! j.
Proof. intros. rewrite updateAt_lookup. by rewrite decide_False. Qed.

End Updaters.

Lemma sessions_set u w : sessions (setTerminalSessions u w) = u (sessions w).
Proof. reflexivity. Qed.

Lemma andThen_apply (a b : Action) w : (a >>> b) w = b (a w).
Proof. reflexivity. Qed.

(** ** Frame lemmas of the page *)

Section PageLemmas.
Context (env : Env).
Import TerminalManagementPage.

Lemma addOutput_unfold i ty c w :
  addOutput env i ty c w =
  setTerminalSessions (updateAt i (appendFrame (frame env w ty c i))) w.
Proof. reflexivity. Qed.

Lemma clearConnection_unfold i :
  clearConnection i =
  setTerminalSessions
    (updateAt i (TerminalSession.with_connection None false)).
Proof. reflexivity. Qed.

Lemma addOutput_sessions i ty c w j :
  sessions (addOutput env i ty c w) !! j =
  if decide (i = j) then appendFrame (frame env w ty c i) <$> sessions w !! j
  else sessions w !! j.
Proof. rewrite addOutput_unfold, sessions_set. apply updateAt_lookup. Qed.

Lemma addOutput_rest i ty c w :
  effects (addOutput env i ty c w) = effects w ∧
  sockets (addOutput env i ty c w) = sockets w ∧
  clock (addOutput env i ty c w) = clock w ∧
  selectAll (addOutput env i ty c w) = selectAll w.
Proof. done. Qed.

Lemma onerror_sessions i w j :
  sessions (onerror env i w) !! j =
  if decide (i = j) then
    (λ s, TerminalSession.with_connection None false
            (appendFrame
               (frame env w "error" (Some "WebSocket connection error") i) s))
    <$> sessions w !! j
  else sessions w !! j.
Proof.
  unfold onerror. rewrite andThen_apply, clearConnection_unfold, sessions_set.
  rewrite updateAt_lookup, addOutput_sessions.
  case_decide; [|done]. by rewrite <- option_fmap_compose.
Qed.

Lemma onclose_sessions i w j :
  sessions (onclose env i w) !! j =
  if decide (i = j) then
    (λ s, TerminalSession.with_connection None false
            (appendFrame (frame env w "system" (Some "Connection closed") i) s))
    <$> sessions w !! j
  else sessions w !! j.
Proof.
  unfold onclose. rewrite andThen_apply, clearConnection_unfold, sessions_set.
  rewrite updateAt_lookup, addOutput_sessions.
  case_decide; [|done]. by rewrite <- option_fmap_compose.
Qed.

End PageLemmas.

(** ** Routing of incoming frames *)

(** C5.  The message callback installed for session [X] appends a frame to
    the log of [X] only when the frame is tagged with the identifier [X]: a
    frame with another tag (or none, or an unreadable payload) leaves the
    whole world as it was.  A frame tagged [X] is appended to the log of [X]
    as one frame that itself carries [X], and in every case the entry of each
    session other than [X], the sockets and the trace are unchanged. *)
Theorem onmessage_routes_by_session (env : Env) (X : string)
    (data : option ServerMessage.t) (w : World) :
  let w' := TerminalManagementPage.onmessage env X data w in
  (∀ Y, Y ≠ X → sessions w' !! Y = sessions w !! Y) ∧
  (ServerMessage.instanceId <$> data ≠ Some (Some X) → w' = w) ∧
  (∀ d, data = Some d → ServerMessage.instanceId d = Some X →
     ∃ fr, TerminalOutput.instanceId fr = Some X ∧
           logOf (sessions w') X = (λ log, log ++ [fr]) <$> logOf (sessions w) X) ∧
  effects w' = effects w ∧ sockets w' = sockets w.
Proof.
  unfold TerminalManagementPage.onmessage.
  destruct data as [d|]; simpl; [|by repeat split].
  destruct (decide (ServerMessage.instanceId d = Some X)) as [Hd|Hd].
  - repeat split.
    + intros Y HY. rewrite addOutput_sessions. by rewrite decide_False.
    + congruence.
    + intros d' [= <-] _. eexists (frame env w _ _ X). split; [done|].
      unfold logOf. rewrite addOutput_sessions, decide_True by done.
      by destruct (sessions w !! X).
  - repeat split; try done. intros d' [= <-] ?. done.
Qed.

(** ** Failures stay in their pane *)



(** ** Sending a command *)

(** The two views send commands with the same code. *)
Lemma sendCommand_component (env : Env) :
  TerminalComponent.sendCommand env = TerminalManagementPage.sendCommand env.
Proof. reflexivity. Qed.

Lemma sendCommand_live (env : Env) ts X c s h w :
  ts !! X = Some s →
  TerminalSession.ws s = Some h →
  TerminalSession.isConnected s = true →
  TerminalManagementPage.sendCommand env ts X c w =
  (TerminalManagementPage.addOutput env X "input" (Some ("$ " +:+ c))
   >>> perform (WsSend h (CommandMsg c X))
   >>> setTerminalSessions
         (updateAt X (TerminalSession.with_currentCommand ""))) w.
Proof.
  intros Hs Hws Hc. unfold TerminalManagementPage.sendCommand.
  by rewrite Hs, Hws, Hc.
Qed.

Lemma sendCommand_idle (env : Env) ts X c s w :
  ts !! X = Some s →
  TerminalSession.ws s = None ∨ TerminalSession.isConnected s = false →
  TerminalManagementPage.sendCommand env ts X c w = w.
Proof.
  intros Hs Hidle. unfold TerminalManagementPage.sendCommand. rewrite Hs.
  destruct (TerminalSession.ws s); [|done].
  destruct Hidle as [?| ->]; done.
Qed.



(** C6 as the code has it.  When session [X] is not connected -- it holds no
    socket or [isConnected] is false -- [sendCommand(X, c)], in both views,
    does nothing at all: no message is sent, no frame is appended, nothing is
    kept for a later delivery, no toast is shown, and the whole state,
    the pending command of [X] included, is what it was.  The write is
    dropped silently; no error is raised or reported. *)
Theorem sendCommand_not_connected_is_dropped (env : Env)
    (send : gmap string TerminalSession.t → string → string → Action)
    (ts : gmap string TerminalSession.t) (X c : string)
    (s : TerminalSession.t) (w : World) :
  send = TerminalManagementPage.sendCommand env ∨
  send = TerminalComponent.sendCommand env →
  ts !! X = Some s →
  TerminalSession.ws s = None ∨ TerminalSession.isConnected s = false →
  send ts X c w = w ∧ ¬ reportsError X w (send ts X c w).
Proof.
  intros Hsend Hs Hidle.
  assert (send ts X c w = w) as ->.
  { destruct Hsend as [-> | ->]; [|rewrite sendCommand_component];
      by apply sendCommand_idle with s. }
  split; [done|]. by intros [?|?].
Qed.

Lemma sendCommand_not_connected_is_dropped_witness :
  TerminalManagementPage.sendCommand Run.env (sessions Run.started) "i-1" "ls"
    Run.started = Run.started.
Proof.
  refine (proj1 (sendCommand_not_connected_is_dropped Run.env
            (TerminalManagementPage.sendCommand Run.env)
            (sessions Run.started) "i-1" "ls"
            (TerminalManagementPage.initialSession Run.web) Run.started
            _ _ _)).
  - left. reflexivity.
  - vm_compute. reflexivity.
  - left. reflexivity.
Defined.

(** C6 as stated fails: the session "i-1" is not yet connected, a command is
    written to it, and no error of any kind is reported -- no toast is shown
    and no frame of type "error" is logged; the call changes nothing. *)
Lemma sendCommand_not_connected_reports_nothing :
  TerminalSession.isConnected <$> sessions Run.started !! "i-1" = Some false ∧
  ¬ reportsError "i-1" Run.started
      (TerminalManagementPage.sendCommand Run.env (sessions Run.started)
         "i-1" "ls" Run.started).
Proof.
  split; [vm_compute; reflexivity|].
  assert (TerminalManagementPage.sendCommand Run.env (sessions Run.started)
            "i-1" "ls" Run.started = Run.started) as -> by (vm_compute; reflexivity).
  by intros [?|?].
Qed.

(** ** Session identifiers *)

Section Identifiers.

Local Abbreviation chars := list_ascii_of_string.

Lemma chars_app (a b : string) : chars (a +:+ b) = chars a ++ chars b.
Proof. induction a as [|c a IH]; simpl; [done | by rewrite IH]. Qed.

Lemma chars_inj (a b : string) : chars a = chars b → a = b.
Proof.
  intros H. rewrite <- (string_of_list_ascii_of_string a),
    <- (string_of_list_ascii_of_string b). by rewrite H.
Qed.

(** A list is cut in one way only at the last occurrence of [sep]. *)
Lemma cut_at_last {A : Type} (sep : A) (l1 l2 d1 d2 : list A) :
  sep ∉ d1 → sep ∉ d2 →
  l1 ++ sep :: d1 = l2 ++ sep :: d2 → l1 = l2 ∧ d1 = d2.
Proof.
  intros H1 H2. revert l2.
  induction l1 as [|x l1 IH]; intros [|y l2]; simpl; intros Heq.
  - by injection Heq.
  - injection Heq as -> ->. exfalso. apply H1.
    apply elem_of_app. right. apply list_elem_of_here.
  - injection Heq as -> <-. exfalso. apply H2.
    apply elem_of_app. right. apply list_elem_of_here.
  - injection Heq as -> Heq. apply IH in Heq. by destruct Heq as [-> ->].
Qed.

Lemma pretty_N_go_no_underscore (x : N) (s : string) :
  "_"%char ∉ chars s → "_"%char ∉ chars (pretty_N_go x s).
Proof.
  revert s. induction (N.lt_wf_0 x) as [x _ IH]; intros s Hs.
  destruct (decide (x = 0%N)) as [->|Hx]; [by rewrite pretty_N_go_0|].
  rewrite pretty_N_go_step by lia. apply IH.
  - apply N.div_lt; lia.
  - simpl. rewrite not_elem_of_cons. split; [|done].
    unfold pretty_N_char. by repeat case_match.
Qed.

Lemma pretty_N_no_underscore (x : N) : "_"%char ∉ chars (pretty x).
Proof.
  unfold pretty, pretty_N. case_decide.
  - simpl. rewrite not_elem_of_cons. split; [done | apply not_elem_of_nil].
  - apply pretty_N_go_no_underscore. apply not_elem_of_nil.
Qed.

Lemma duplicateId_chars (i : string) (now : N) :
  chars (TerminalManagementPage.duplicateId i now) =
  (chars i ++ chars "_duplicate") ++ "_"%char :: chars (pretty now).
Proof.
  unfold TerminalManagementPage.duplicateId.
  rewrite !chars_app, <- app_assoc. reflexivity.
Qed.

(** The identifier of a duplicate determines its source and its clock
    reading. *)
Lemma duplicateId_inj (i1 i2 : string) (t1 t2 : N) :
  TerminalManagementPage.duplicateId i1 t1 =
  TerminalManagementPage.duplicateId i2 t2 →
  i1 = i2 ∧ t1 = t2.
Proof.
  intros Heq. apply (f_equal chars) in Heq. rewrite !duplicateId_chars in Heq.
  apply cut_at_last in Heq; [|apply pretty_N_no_underscore..].
  destruct Heq as [Hi Ht].
  split.
  - apply chars_inj. by apply app_inv_tail in Hi.
  - apply (inj pretty). by apply chars_inj.
Qed.

Lemma duplicateId_ne_source (i : string) (now : N) :
  TerminalManagementPage.duplicateId i now ≠ i.
Proof.
  intros Heq. apply (f_equal chars) in Heq. rewrite duplicateId_chars in Heq.
  rewrite <- app_assoc in Heq.
  rewrite <- (app_nil_r (chars i)) in Heq at 2.
  by apply app_inv_head in Heq.
Qed.

End Identifiers.

Lemma duplicateSession_unfold ts X s w :
  ts !! X = Some s →
  TerminalManagementPage.duplicateSession ts X w =
  let newInstanceId := TerminalManagementPage.duplicateId X (clock w) in
  (setTerminalSessions
     (λ prev,
        <[newInstanceId :=
            TerminalSession.mk newInstanceId (TerminalSession.instance s)
                               false [] "" None false]> prev)
   >>> perform (SetTimeout (ConnectToInstanceCb ts newInstanceId) 500)
   >>> toast (mkToast "Session duplicated"
                ("Created duplicate session for " +:+
                 EC2Instance.name (TerminalSession.instance s)) None)) w.
Proof. intros Hs. unfold TerminalManagementPage.duplicateSession. by rewrite Hs. Qed.

Lemma duplicateSession_effect ts X s w :
  ts !! X = Some s →
  let w' := TerminalManagementPage.duplicateSession ts X w in
  let newId := TerminalManagementPage.duplicateId X (clock w) in
  sessions w' =
    <[newId := TerminalSession.mk newId (TerminalSession.instance s) false []
                                  "" None false]> (sessions w) ∧
  scheduledConnects (effects w') = scheduledConnects (effects w) ++ [newId] ∧
  sockets w' = sockets w.
Proof.
  intros Hs w' newId. subst w'.
  rewrite (duplicateSession_unfold _ _ _ _ Hs). fold newId. cbv zeta.
  rewrite !andThen_apply. repeat split.
  simpl. unfold scheduledConnects. rewrite !omap_app. simpl.
  by rewrite app_nil_r.
Qed.

(** C7 as the code has it.  Duplicating an existing session [X] registers
    a session under the identifier [`${X}_duplicate_${Date.now()}`], which is
    never [X] itself; the session has the target of [X], an empty output log,
    no socket, [isConnected] false and an empty pending command, and its
    connection is scheduled.  The entry of [X] -- log, connection state,
    pending command -- is exactly what it was, as is every entry other than
    the one under the new identifier.  The identifier is fresh and the
    session brand-new, the registry growing by one entry, exactly when no
    session is registered under that identifier yet; otherwise the entry
    that is registered under it is replaced and the registry does not
    grow. *)
Theorem duplicateSession_fresh_and_independent
    (ts : gmap string TerminalSession.t) (X : string) (s : TerminalSession.t)
    (w : World) :
  ts !! X = Some s →
  let w' := TerminalManagementPage.duplicateSession ts X w in
  let newId := TerminalManagementPage.duplicateId X (clock w) in
  newId ≠ X ∧
  sessions w' !! newId =
    Some (TerminalSession.mk newId (TerminalSession.instance s) false [] ""
                             None false) ∧
  sessions w' !! X = sessions w !! X ∧
  (∀ Y, Y ≠ newId → sessions w' !! Y = sessions w !! Y) ∧
  scheduledConnects (effects w') = scheduledConnects (effects w) ++ [newId] ∧
  sockets w' = sockets w ∧
  (sessions w !! newId = None →
     size (sessions w') = S (size (sessions w))) ∧
  (is_Some (sessions w !! newId) → size (sessions w') = size (sessions w)).
Proof.
  intros Hs w' newId.
  destruct (duplicateSession_effect ts X s w Hs) as (Hm & He & Hk).
  fold w' newId in Hm, He, Hk.
  pose proof (duplicateId_ne_source X (clock w)) as Hne. fold newId in Hne.
  rewrite Hm. repeat split; try done.
  - by rewrite lookup_insert_eq.
  - by rewrite lookup_insert_ne.
  - intros Y HY. by rewrite lookup_insert_ne.
  - intros Hfresh. by apply map_size_insert_None.
  - intros [old Hold]. by eapply map_size_insert_Some.
Qed.

Lemma duplicateSession_fresh_and_independent_witness :
  sessions (TerminalManagementPage.duplicateSession (sessions Run.streaming)
              "i-1" Run.streaming) !! "i-1" =
  sessions Run.streaming !! "i-1".
Proof.
  refine (proj1 (proj2 (proj2
    (duplicateSession_fresh_and_independent (sessions Run.streaming) "i-1"
       (TerminalSession.mk "i-1" Run.web true
          [TerminalOutput.mk "1000" "system"
             (Some "Connected to web (10.0.0.1)") (Some "i-1")]
          "" (Some 0) false)
       Run.streaming _)))).
  vm_compute. reflexivity.
Defined.

(** ** Closing the view *)

Lemma closeCalls_app (l k : list Effect) :
  closeCalls (l ++ k) = closeCalls l ++ closeCalls k.
Proof. apply omap_app. Qed.

Lemma closeCalls_closes (l : list nat) : closeCalls (WsClose <$> l) = l.
Proof. induction l as [|h l IH]; simpl; [done | f_equal; exact IH]. Qed.

Lemma foldl_closeSocket (l : list (string * TerminalSession.t)) (w : World) :
  foldl (λ w' kv, TerminalManagementPage.closeSocket kv.2 w') w l =
  mkWorld (sessions w) (selectAll w) (sockets w)
          (effects w ++ (WsClose <$> omap (λ kv, TerminalSession.ws kv.2) l))
          (clock w).
Proof.
  revert w. induction l as [|[i s] l IH]; intros w; simpl.
  - rewrite app_nil_r. by destruct w.
  - rewrite IH. unfold TerminalManagementPage.closeSocket. simpl.
    destruct (TerminalSession.ws s) as [h|]; simpl; [|done].
    by rewrite <- app_assoc.
Qed.

Lemma forEach_closeSocket (ts : gmap string TerminalSession.t) (w : World) :
  forEach TerminalManagementPage.closeSocket ts w =
  mkWorld (sessions w) (selectAll w) (sockets w)
          (effects w ++ (WsClose <$> openSockets ts)) (clock w).
Proof. apply foldl_closeSocket. Qed.

Lemma length_omap_filter {A B : Type} (f : A → option B) (l : list A) :
  length (omap f l) = length (filter (λ x, is_Some (f x)) l).
Proof.
  induction l as [|x l IH]; [done|].
  rewrite filter_cons. cbn [omap list_omap]. destruct (f x) as [y|] eqn:E.
  - rewrite decide_True by eauto. cbn [length]. f_equal. exact IH.
  - rewrite decide_False by (by intros [??]). exact IH.
Qed.

Lemma openSockets_length (ts : gmap string TerminalSession.t) :
  length (openSockets ts) = size (openSessions ts).
Proof.
  unfold openSockets, openSessions.
  rewrite length_omap_filter, <- length_map_to_list, map_filter_alt.
  apply Permutation_length. symmetry. apply map_to_list_to_map.
  apply NoDup_fmap_fst.
  - intros i x y Hx Hy. apply list_elem_of_filter in Hx as [_ Hx].
    apply list_elem_of_filter in Hy as [_ Hy].
    apply elem_of_map_to_list in Hx, Hy. congruence.
  - apply NoDup_filter, NoDup_map_to_list.
Qed.

Lemma openSockets_elem_of (ts : gmap string TerminalSession.t) (h : nat) :
  h ∈ openSockets ts ↔
  ∃ i s, ts !! i = Some s ∧ TerminalSession.ws s = Some h.
Proof.
  unfold openSockets. rewrite list_elem_of_omap. split.
  - intros [[i s] [Hin Hws]]. apply elem_of_map_to_list in Hin. eauto.
  - intros (i & s & Hin & Hws). exists (i, s). split; [|done].
    by apply elem_of_map_to_list.
Qed.

(** C3 as the code has it.  [exitTerminals], run in a render whose registry
    has K sessions holding a socket, calls [close()] exactly K times: once on
    the socket of each such session, and on nothing else.  After these calls
    it navigates to "/" -- the one [setLocation] call it makes -- and shows
    the toast "Terminals closed"; it does nothing else, and the registry
    itself is not modified. *)
Theorem exitTerminals_closes_every_socket
    (ts : gmap string TerminalSession.t) (w : World) :
  let w' := TerminalManagementPage.exitTerminals ts w in
  closeCalls (effects w') = closeCalls (effects w) ++ openSockets ts ∧
  length (openSockets ts) = size (openSessions ts) ∧
  (∀ h, h ∈ openSockets ts ↔
        ∃ i s, ts !! i = Some s ∧ TerminalSession.ws s = Some h) ∧
  sessions w' = sessions w ∧
  sockets w' = sockets w ∧
  effects w' =
    effects w ++ (WsClose <$> openSockets ts) ++
    [SetLocation "/";
     ShowToast (mkToast "Terminals closed"
                        "All terminal sessions have been closed" None)].
Proof.
  intros w'. subst w'. unfold TerminalManagementPage.exitTerminals.
  rewrite !andThen_apply, forEach_closeSocket.
  split; [|split; [|split; [|split; [|split]]]].
  - simpl. rewrite !closeCalls_app, closeCalls_closes. simpl.
    by rewrite !app_nil_r.
  - apply openSockets_length.
  - apply openSockets_elem_of.
  - reflexivity.
  - reflexivity.
  - simpl. by rewrite <- !app_assoc.
Qed.

(** C3 as stated fails: with two sessions open, [exitTerminals] closes the
    two sockets and the registry still holds both entries. *)
Lemma exitTerminals_keeps_registry :
  size (openSessions (sessions Run.streaming)) = 2 ∧
  closeCalls (effects (TerminalManagementPage.exitTerminals
                         (sessions Run.streaming) Run.streaming)) = [0; 1] ∧
  sessions (TerminalManagementPage.exitTerminals
              (sessions Run.streaming) Run.streaming) ≠ ∅.
Proof.
  split; [vm_compute; reflexivity|]. split; [vm_compute; reflexivity|].
  intros Hempty. apply (f_equal (λ m, m !! "i-1")) in Hempty.
  vm_compute in Hempty. discriminate.
Qed.

(** The cleanup of the effect with dependencies [[]] belongs to the first
    render, whose registry is the initial empty [Map]: it closes nothing. *)
Lemma unmountCleanup_first_render (w : World) :
  TerminalManagementPage.unmountCleanup ∅ w = w.
Proof.
  unfold TerminalManagementPage.unmountCleanup.
  rewrite forEach_closeSocket. unfold openSockets.
  rewrite map_to_list_empty. simpl. rewrite app_nil_r. by destruct w.
Qed.

(** ** Opening a session *)

Lemma connectToInstance_found (env : Env) ts X s w :
  ts !! X = Some s → webSocket_throws env = None →
  TerminalManagementPage.connectToInstance env ts X w =
  newWebSocket
    (WebSocket.mk (TerminalManagementPage.wsUrl env) X s
       (number_or (EC2Instance.credentialId (TerminalSession.instance s)) 1))
    w.
Proof.
  intros Hs Hthrow. unfold TerminalManagementPage.connectToInstance.
  by rewrite Hs, Hthrow.
Qed.

Lemma connectToInstance_not_found (env : Env) ts X w :
  ts !! X = None →
  TerminalManagementPage.connectToInstance env ts X w =
  toast (mkToast "Connection error" "Terminal session not found"
                 (Some "destructive")) w.
Proof.
  intros Hs. unfold TerminalManagementPage.connectToInstance. by rewrite Hs.
Qed.

Lemma sendCalls_snoc (tr : list Effect) (h : nat) (m : ClientMessage) :
  sendCalls (tr ++ [WsSend h m]) = sendCalls tr ++ [(h, m)].
Proof. unfold sendCalls. by rewrite omap_app. Qed.

Lemma dispatch_open (env : Env) h sock w :
  sockets w !! h = Some sock →
  TerminalManagementPage.dispatch env h TerminalManagementPage.Open w =
  TerminalManagementPage.onopen env h (WebSocket.instanceId sock)
    (WebSocket.session sock) (WebSocket.credentialId sock) w.
Proof.
  intros Hsock. unfold TerminalManagementPage.dispatch. by rewrite Hsock.
Qed.

(** C1 as the code has it.  When the socket that [connectToInstance] made for
    session [X] opens, the one message it sends is the connect request for
    [X] with the [privateIp], [keyName] and [region] of the target instance
    of [X], and with the [credentialId] of that instance when the instance
    has one other than 0; when the instance carries no [credentialId] (or 0),
    the request carries the fixed credential 1. *)
Theorem connect_request_uses_target_key (env : Env)
    (ts : gmap string TerminalSession.t) (X : string) (s : TerminalSession.t)
    (w w2 : World) :
  ts !! X = Some s →
  webSocket_throws env = None →
  let inst := TerminalSession.instance s in
  let w1 := TerminalManagementPage.connectToInstance env ts X w in
  let h := length (sockets w) in
  sockets w1 `prefix_of` sockets w2 →
  sendCalls (effects (TerminalManagementPage.dispatch env h
                        TerminalManagementPage.Open w2)) =
  sendCalls (effects w2) ++
  [(h, ConnectMsg (EC2Instance.privateIp inst) "ec2-user"
                  (EC2Instance.keyName inst) (EC2Instance.region inst)
                  (match EC2Instance.credentialId inst with
                   | Some c => if decide (c = 0%Z) then 1%Z else c
                   | None => 1%Z
                   end) X)].
Proof.
  intros Hs Hthrow inst w1 h Hpre.
  assert (sockets w2 !! h =
          Some (WebSocket.mk (TerminalManagementPage.wsUrl env) X s
                  (number_or (EC2Instance.credentialId inst) 1))) as Hsock.
  { eapply prefix_lookup_Some; [|exact Hpre]. subst w1.
    rewrite (connectToInstance_found env ts X s w Hs Hthrow). simpl.
    by rewrite lookup_app_r, Nat.sub_diag. }
  rewrite (dispatch_open env h _ w2 Hsock).
  unfold TerminalManagementPage.onopen. rewrite !andThen_apply.
  change (effects (perform ?e ?w0)) with (effects w0 ++ [e]).
  rewrite sendCalls_snoc. reflexivity.
Qed.

Lemma connect_request_uses_target_key_witness :
  sendCalls (effects (TerminalManagementPage.dispatch Run.env 1
                        TerminalManagementPage.Open Run.connecting)) =
  [(1, ConnectMsg "10.0.0.2" "ec2-user" "key-b" "eu-west-1" 7 "i-2")].
Proof.
  refine (connect_request_uses_target_key Run.env (sessions Run.started)
            "i-2" (TerminalManagementPage.initialSession Run.db)
            (TerminalManagementPage.connectToInstance Run.env
               (sessions Run.started) "i-1" Run.started)
            Run.connecting _ _ _).
  - vm_compute. reflexivity.
  - reflexivity.
  - exists []. vm_compute. reflexivity.
Defined.

(** C1 as stated fails: the target "i-1" carries no [credentialId], and the
    connect request of its session is sent with the credential 1, the fixed
    value the code falls back to. *)
Lemma connect_request_falls_back_to_default :
  EC2Instance.credentialId Run.web = None ∧
  TerminalSession.instance <$> sessions Run.started !! "i-1" = Some Run.web ∧
  sendCalls (effects (TerminalManagementPage.dispatch Run.env 0
                        TerminalManagementPage.Open Run.connecting)) =
  [(0, ConnectMsg "10.0.0.1" "ec2-user" "key-a" "us-east-1" 1 "i-1")].
Proof. repeat split; vm_compute; reflexivity. Qed.

(** ** One connection per session *)

Create HintDb sockets discriminated.

Section KeepsSockets.
Context (env : Env).
Import TerminalManagementPage.

Lemma keepsSockets_skip : keepsSockets skip.
Proof. intros w. split; [done|]. intros i s' Hs'. right. eauto. Qed.

Lemma keepsSockets_andThen (a b : Action) :
  keepsSockets a → keepsSockets b → keepsSockets (a >>> b).
Proof.
  intros Ha Hb w. destruct (Ha w) as [Hpa Hsa], (Hb (a w)) as [Hpb Hsb].
  split; [by etrans|]. intros i s'' Hs''.
  destruct (Hsb i s'' Hs'') as [?|(s' & Hs' & Heq)]; [by left|].
  destruct (Hsa i s' Hs') as [Hn|(s & Hs & Heq')].
  - left. by rewrite Heq.
  - right. exists s. split; [done|]. by rewrite Heq.
Qed.

Lemma keepsSockets_perform (e : Effect) : keepsSockets (perform e).
Proof. intros w. split; [done|]. intros i s' Hs'. right. eauto. Qed.

Lemma keepsSockets_toast (t : Toast) : keepsSockets (toast t).
Proof. apply keepsSockets_perform. Qed.

Lemma keepsSockets_tick (d : N) : keepsSockets (tick d).
Proof. intros w. split; [done|]. intros i s' Hs'. right. eauto. Qed.

Lemma keepsSockets_newWebSocket (sock : WebSocket.t) :
  keepsSockets (newWebSocket sock).
Proof.
  intros w. split; [by apply prefix_app_r|]. intros i s' Hs'. right. eauto.
Qed.

Lemma keepsSockets_updateAt (i : string)
    (f : TerminalSession.t → TerminalSession.t) :
  (∀ s, TerminalSession.ws (f s) = None ∨
        TerminalSession.ws (f s) = TerminalSession.ws s) →
  keepsSockets (setTerminalSessions (updateAt i f)).
Proof.
  intros Hf w. split; [done|]. intros j s'. rewrite sessions_set.
  rewrite updateAt_lookup. case_decide; [|by right; eauto].
  destruct (sessions w !! j) as [s|]; [|done]. intros [= <-].
  destruct (Hf s) as [?|?]; [by left|]. right. eauto.
Qed.

Lemma keepsSockets_addOutput i ty c : keepsSockets (addOutput env i ty c).
Proof.
  intros w. rewrite addOutput_unfold.
  apply (keepsSockets_updateAt i (appendFrame (frame env w ty c i))).
  intros s. by right.
Qed.

Lemma keepsSockets_clearConnection i : keepsSockets (clearConnection i).
Proof.
  rewrite clearConnection_unfold. apply keepsSockets_updateAt.
  intros s. by left.
Qed.

Lemma keepsSockets_forEachArr {A : Type} (f : A → Action) (l : list A) :
  (∀ x, keepsSockets (f x)) → keepsSockets (forEachArr f l).
Proof.
  intros Hf. induction l as [|x l IH] using rev_ind.
  - apply keepsSockets_skip.
  - intros w. unfold forEachArr. rewrite foldl_snoc.
    apply (keepsSockets_andThen (forEachArr f l) (f x) IH (Hf x) w).
Qed.

Lemma keepsSockets_forEach (f : TerminalSession.t → Action) ts :
  (∀ x, keepsSockets (f x)) → keepsSockets (forEach f ts).
Proof.
  intros Hf. apply (keepsSockets_forEachArr (λ kv, f kv.2)). auto.
Qed.

Lemma keepsSockets_closeSocket s : keepsSockets (closeSocket s).
Proof.
  unfold closeSocket. destruct (TerminalSession.ws s);
    [apply keepsSockets_perform | apply keepsSockets_skip].
Qed.

Hint Resolve keepsSockets_skip keepsSockets_andThen keepsSockets_perform
  keepsSockets_toast keepsSockets_tick keepsSockets_newWebSocket
  keepsSockets_addOutput keepsSockets_clearConnection
  keepsSockets_forEachArr keepsSockets_forEach keepsSockets_closeSocket
  : sockets.

Lemma keepsSockets_onmessage i data : keepsSockets (onmessage env i data).
Proof.
  unfold onmessage. destruct data; [case_decide|]; auto with sockets.
Qed.

Lemma keepsSockets_onerror i : keepsSockets (onerror env i).
Proof. unfold onerror. auto with sockets. Qed.

Lemma keepsSockets_onclose i : keepsSockets (onclose env i).
Proof. unfold onclose. auto with sockets. Qed.

Lemma keepsSockets_connectToInstance ts i :
  keepsSockets (connectToInstance env ts i).
Proof.
  unfold connectToInstance. destruct (ts !! i); [|auto with sockets].
  destruct (webSocket_throws env); auto with sockets.
Qed.

Lemma keepsSockets_sendCommand ts i c : keepsSockets (sendCommand env ts i c).
Proof.
  unfold sendCommand. destruct (ts !! i) as [s|]; [|auto with sockets].
  destruct (TerminalSession.ws s); [|auto with sockets].
  destruct (TerminalSession.isConnected s); [|auto with sockets].
  repeat apply keepsSockets_andThen; auto with sockets.
  apply (keepsSockets_updateAt i). intros s0. by right.
Qed.

Lemma keepsSockets_toggleSelectAll b : keepsSockets (toggleSelectAll b).
Proof.
  intros w. split; [done|]. intros i s'. unfold toggleSelectAll. simpl.
  rewrite lookup_fmap. destruct (sessions w !! i) as [s|]; [|done].
  intros [= <-]. right. eauto.
Qed.

Lemma keepsSockets_toggleTerminalSelection i :
  keepsSockets (toggleTerminalSelection i).
Proof.
  apply (keepsSockets_updateAt i
           (λ s, TerminalSession.with_isSelected
                   (negb (TerminalSession.isSelected s)) s)).
  intros s. by right.
Qed.

Lemma keepsSockets_disconnectSelected ts : keepsSockets (disconnectSelected ts).
Proof.
  unfold disconnectSelected. case_decide; [auto with sockets|].
  apply keepsSockets_andThen; [|auto with sockets].
  apply keepsSockets_forEachArr. intros s. apply keepsSockets_andThen.
  - destruct (TerminalSession.ws s); auto with sockets.
  - apply (keepsSockets_updateAt (TerminalSession.instanceId s)).
    intros s0. by left.
Qed.

Lemma keepsSockets_insert_idle i (s : TerminalSession.t) :
  TerminalSession.ws s = None →
  keepsSockets (setTerminalSessions (λ prev, <[i := s]> prev)).
Proof.
  intros Hs w. split; [done|]. intros j s'. rewrite sessions_set.
  destruct (decide (i = j)) as [->|Hne].
  - rewrite lookup_insert_eq. intros [= <-]. by left.
  - rewrite lookup_insert_ne by done. right. eauto.
Qed.

Lemma keepsSockets_duplicateSession ts i : keepsSockets (duplicateSession ts i).
Proof.
  intros w. unfold duplicateSession.
  destruct (ts !! i) as [s|]; [|apply keepsSockets_skip]. cbv zeta.
  refine (keepsSockets_andThen _ _ _ (keepsSockets_toast _) w).
  apply keepsSockets_andThen; [|apply keepsSockets_perform].
  by apply keepsSockets_insert_idle.
Qed.

Lemma keepsSockets_closeTerminal ts i : keepsSockets (closeTerminal ts i).
Proof.
  unfold closeTerminal. apply keepsSockets_andThen.
  - destruct (ts !! i); auto with sockets.
  - intros w. split; [done|]. intros j s'. rewrite sessions_set.
    intros Hs'. apply lookup_delete_Some in Hs' as [_ Hs']. right. eauto.
Qed.

Lemma keepsSockets_exitTerminals ts : keepsSockets (exitTerminals ts).
Proof. unfold exitTerminals. auto 6 with sockets. Qed.

Lemma keepsSockets_unmountCleanup ts : keepsSockets (unmountCleanup ts).
Proof. unfold unmountCleanup. auto with sockets. Qed.

Lemma keepsSockets_handleFileUpload ts f :
  keepsSockets (handleFileUpload env ts f).
Proof.
  unfold handleFileUpload. case_decide; [auto with sockets|].
  apply keepsSockets_andThen; [|auto with sockets].
  apply keepsSockets_forEachArr. intros s. apply keepsSockets_andThen;
    [auto with sockets | apply keepsSockets_sendCommand].
Qed.

Lemma initialSessions_idle (selected : list EC2Instance.t) i s :
  initialSessions selected !! i = Some s → TerminalSession.ws s = None.
Proof.
  unfold initialSessions.
  assert (∀ m0 : gmap string TerminalSession.t,
            (∀ s0, m0 !! i = Some s0 → TerminalSession.ws s0 = None) →
            foldl (λ newSessions instance,
                     <[EC2Instance.instanceId instance :=
                         initialSession instance]> newSessions)
                  m0 selected !! i = Some s →
            TerminalSession.ws s = None) as Hgen.
  { induction selected as [|inst l IH]; intros m0 Hm0; simpl; [by apply Hm0|].
    apply IH. intros s0.
    destruct (decide (EC2Instance.instanceId inst = i)) as [->|Hne].
    - rewrite lookup_insert_eq. by intros [= <-].
    - rewrite lookup_insert_ne by done. apply Hm0. }
  apply Hgen. intros s0. by rewrite lookup_empty.
Qed.

Lemma keepsSockets_initEffect ts allInstances :
  keepsSockets (initEffect env ts allInstances).
Proof.
  unfold initEffect. case_bool_decide; [|auto with sockets].
  apply keepsSockets_andThen; [|auto with sockets].
  intros w. split; [done|]. intros i s'. rewrite sessions_set.
  intros Hs'. left. by eapply initialSessions_idle.
Qed.

(** A socket that opens gives itself to the session it was made for. *)
Lemma onopen_ownSockets h sock w :
  sockets w !! h = Some sock → ownSockets w →
  ownSockets (onopen env h (WebSocket.instanceId sock)
                (WebSocket.session sock) (WebSocket.credentialId sock) w).
Proof.
  intros Hsock Hown i s' h'. unfold onopen. rewrite !andThen_apply.
  change (sessions (perform ?e ?w0)) with (sessions w0).
  change (sockets (perform ?e ?w0)) with (sockets w0).
  rewrite addOutput_sessions.
  change (sockets (addOutput env ?a ?b ?c ?w0)) with (sockets w0).
  match goal with
  | |- context [setTerminalSessions ?u w] =>
      change (setTerminalSessions u w)
        with (setTerminalSessions
                (updateAt (WebSocket.instanceId sock)
                   (TerminalSession.with_connection (Some h) true)) w)
  end.
  rewrite sessions_set, updateAt_lookup.
  change (sockets (setTerminalSessions ?u ?w0)) with (sockets w0).
  destruct (decide (WebSocket.instanceId sock = i)) as [<-|Hi].
  - destruct (sessions w !! WebSocket.instanceId sock) as [s|]; [|done].
    simpl. intros [= <-] [= <-]. eauto.
  - apply Hown.
Qed.

Lemma keepsSockets_ownSockets (a : Action) w :
  keepsSockets a → ownSockets w → ownSockets (a w).
Proof.
  intros Ha Hown i s' h Hs' Hws. destruct (Ha w) as [Hpre Hkeep].
  destruct (Hkeep i s' Hs') as [Hn|(s & Hs & Heq)]; [congruence|].
  rewrite Heq in Hws. destruct (Hown i s h Hs Hws) as (sock & Hsock & Hi).
  exists sock. split; [|done]. by eapply prefix_lookup_Some.
Qed.

Lemma step_ownSockets w w' : step env w w' → ownSockets w → ownSockets w'.
Proof.
  intros Hstep Hown. destruct Hstep as
    [ts all w|cb w|h ev w|ts i c w|b w|i w|ts w|ts i w|ts i w|ts w|ts f w|ts w
    |d w].
  - by apply keepsSockets_ownSockets, Hown; apply keepsSockets_initEffect.
  - destruct cb. by apply keepsSockets_ownSockets, Hown;
      apply keepsSockets_connectToInstance.
  - unfold dispatch. destruct (sockets w !! h) as [sock|] eqn:Hsock; [|done].
    destruct ev.
    + by apply onopen_ownSockets.
    + by apply keepsSockets_ownSockets, Hown; apply keepsSockets_onmessage.
    + by apply keepsSockets_ownSockets, Hown; apply keepsSockets_onerror.
    + by apply keepsSockets_ownSockets, Hown; apply keepsSockets_onclose.
  - by apply keepsSockets_ownSockets, Hown; apply keepsSockets_sendCommand.
  - by apply keepsSockets_ownSockets, Hown; apply keepsSockets_toggleSelectAll.
  - by apply keepsSockets_ownSockets, Hown;
      apply keepsSockets_toggleTerminalSelection.
  - by apply keepsSockets_ownSockets, Hown;
      apply keepsSockets_disconnectSelected.
  - by apply keepsSockets_ownSockets, Hown; apply keepsSockets_duplicateSession.
  - by apply keepsSockets_ownSockets, Hown; apply keepsSockets_closeTerminal.
  - by apply keepsSockets_ownSockets, Hown; apply keepsSockets_exitTerminals.
  - by apply keepsSockets_ownSockets, Hown; apply keepsSockets_handleFileUpload.
  - by apply keepsSockets_ownSockets, Hown; apply keepsSockets_unmountCleanup.
  - by apply keepsSockets_ownSockets, Hown; apply keepsSockets_tick.
Qed.

Lemma reachable_ownSockets w : reachable env w → ownSockets w.
Proof.
  intros [now Hrtc]. revert w Hrtc. apply rtc_ind_r.
  - intros i s h. unfold initialWorld. simpl. by rewrite lookup_empty.
  - intros w1 w2 _ Hstep IH. by eapply step_ownSockets.
Qed.

End KeepsSockets.

Lemma streaming_reachable : reachable Run.env Run.streaming.
Proof.
  exists 1000%N. unfold Run.streaming, Run.connecting. rewrite !andThen_apply.
  eapply rtc_r; [|apply step_socket].
  eapply rtc_r; [|apply step_socket].
  eapply rtc_r;
    [|apply (step_timer Run.env
               (ConnectToInstanceCb (sessions Run.started) "i-2"))].
  eapply rtc_r;
    [|apply (step_timer Run.env
               (ConnectToInstanceCb (sessions Run.started) "i-1"))].
  eapply rtc_once. apply step_initEffect.
Qed.

(** C2 as the code has it.  In every reachable state of the view, a
    [connectToInstance] call that finds its session constructs one more
    [WebSocket], to the endpoint [/ssh-ws] of the page's host, with callbacks
    of its own for that session; a session that holds a socket holds one that
    was constructed for it, so two different sessions never hold the same
    socket.  The sessions of a view share the endpoint, not a connection:
    there is one connection per session. *)
Theorem one_connection_per_session (env : Env) (w : World) :
  reachable env w →
  (∀ ts X s,
     ts !! X = Some s → webSocket_throws env = None →
     sockets (TerminalManagementPage.connectToInstance env ts X w) =
     sockets w ++
     [WebSocket.mk (TerminalManagementPage.wsUrl env) X s
        (number_or (EC2Instance.credentialId (TerminalSession.instance s)) 1)]) ∧
  ownSockets w ∧
  (∀ i j si sj h,
     i ≠ j →
     sessions w !! i = Some si → sessions w !! j = Some sj →
     TerminalSession.ws si = Some h → TerminalSession.ws sj ≠ Some h).
Proof.
  intros Hreach. pose proof (reachable_ownSockets env w Hreach) as Hown.
  split; [|split; [done|]].
  - intros ts X s Hs Hthrow.
    by rewrite (connectToInstance_found env ts X s w Hs Hthrow).
  - intros i j si sj h Hne Hi Hj Hwi Hwj.
    destruct (Hown i si h Hi Hwi) as (socki & Hsi & Hbi).
    destruct (Hown j sj h Hj Hwj) as (sockj & Hsj & Hbj).
    congruence.
Qed.

Lemma one_connection_per_session_witness : ownSockets Run.streaming.
Proof.
  exact (proj1 (proj2 (one_connection_per_session Run.env Run.streaming
                         streaming_reachable))).
Defined.

(** C2 as stated fails: after the two targets of the launch parameter were
    opened, two sockets exist and the two sessions hold different ones. *)
Lemma sessions_hold_different_sockets :
  length (sockets Run.streaming) = 2 ∧
  TerminalSession.ws <$> sessions Run.streaming !! "i-1" = Some (Some 0) ∧
  TerminalSession.ws <$> sessions Run.streaming !! "i-2" = Some (Some 1) ∧
  ¬ sharesOneChannel Run.streaming.
Proof.
  split; [vm_compute; reflexivity|]. split; [vm_compute; reflexivity|].
  split; [vm_compute; reflexivity|]. intros Hshare.
  destruct (sessions Run.streaming !! "i-1") as [s1|] eqn:H1;
    [|vm_compute in H1; discriminate].
  destruct (sessions Run.streaming !! "i-2") as [s2|] eqn:H2;
    [|vm_compute in H2; discriminate].
  assert (TerminalSession.ws s1 = Some 0) as Hw1
    by (vm_compute in H1; by injection H1 as <-).
  assert (TerminalSession.ws s2 = Some 1) as Hw2
    by (vm_compute in H2; by injection H2 as <-).
  pose proof (Hshare "i-1" "i-2" s1 s2 0 1 H1 H2 Hw1 Hw2). discriminate.
Qed.

(** The single-instance view constructs a socket per call as well. *)
Lemma component_connectToInstance_new_socket (env : Env)
    (credentialId : Z) ts X s w :
  ts !! X = Some s → credentialId ≠ 0%Z → webSocket_throws env = None →
  sockets (TerminalComponent.connectToInstance env (Some credentialId) ts X w)
  = sockets w ++
    [WebSocket.mk (TerminalComponent.wsUrl env) X s credentialId].
Proof.
  intros Hs Hc Hthrow. unfold TerminalComponent.connectToInstance.
  rewrite Hs, Hthrow. by rewrite decide_False.
Qed.

(** ** The launch parameter *)

Section Launch.
Context (env : Env).
Import TerminalManagementPage.

Lemma initialSessions_snoc (l : list EC2Instance.t) (x : EC2Instance.t) :
  initialSessions (l ++ [x]) =
  <[EC2Instance.instanceId x := initialSession x]> (initialSessions l).
Proof. unfold initialSessions. by rewrite foldl_snoc. Qed.

Lemma initialSessions_lookup_Some (l : list EC2Instance.t) i s :
  initialSessions l !! i = Some s →
  ∃ inst, inst ∈ l ∧ EC2Instance.instanceId inst = i ∧
          s = initialSession inst.
Proof.
  induction l as [|x l IH] using rev_ind.
  - unfold initialSessions. simpl. by rewrite lookup_empty.
  - rewrite initialSessions_snoc.
    destruct (decide (EC2Instance.instanceId x = i)) as [Hx|Hx].
    + rewrite Hx, lookup_insert_eq. intros [= <-]. exists x.
      split; [|done]. apply elem_of_app. right. apply list_elem_of_here.
    + rewrite lookup_insert_ne by done. intros Hs.
      destruct (IH Hs) as (inst & Hin & Hid & Heq). exists inst.
      split; [|done]. apply elem_of_app. by left.
Qed.

Lemma initialSessions_is_Some (l : list EC2Instance.t) i :
  is_Some (initialSessions l !! i) ↔ i ∈ EC2Instance.instanceId <$> l.
Proof.
  induction l as [|x l IH] using rev_ind.
  - unfold initialSessions. simpl. rewrite lookup_empty. split.
    + by intros [??].
    + by intros ?%elem_of_nil.
  - rewrite initialSessions_snoc, fmap_app, elem_of_app. simpl.
    destruct (decide (EC2Instance.instanceId x = i)) as [Hx|Hx].
    + rewrite Hx, lookup_insert_eq. split; [|eauto].
      intros _. right. apply list_elem_of_here.
    + rewrite lookup_insert_ne by done. rewrite IH. split; [by left|].
      intros [?|Hin]; [done|]. apply list_elem_of_singleton in Hin. done.
Qed.

Lemma forEachArr_schedule (ts : gmap string TerminalSession.t)
    (l : list EC2Instance.t) (w : World) :
  forEachArr (λ instance,
      perform (SetTimeout
                 (ConnectToInstanceCb ts (EC2Instance.instanceId instance))
                 500)) l w =
  mkWorld (sessions w) (selectAll w) (sockets w)
    (effects w ++
     ((λ instance,
         SetTimeout (ConnectToInstanceCb ts (EC2Instance.instanceId instance))
                    500) <$> l))
    (clock w).
Proof.
  unfold forEachArr. revert w. induction l as [|x l IH]; intros w; simpl.
  - rewrite app_nil_r. by destruct w.
  - rewrite IH. simpl. by rewrite <- app_assoc.
Qed.

Lemma scheduledConnects_timers (ts : gmap string TerminalSession.t)
    (l : list EC2Instance.t) :
  scheduledConnects
    ((λ instance,
        SetTimeout (ConnectToInstanceCb ts (EC2Instance.instanceId instance))
                   500) <$> l) =
  EC2Instance.instanceId <$> l.
Proof. induction l as [|x l IH]; simpl; [done | f_equal; exact IH]. Qed.

Lemma selectedInstances_elem_of (allInstances : list EC2Instance.t) inst :
  inst ∈ selectedInstances env allInstances ↔
  EC2Instance.instanceId inst ∈ instanceIds env ∧ inst ∈ allInstances.
Proof.
  unfold selectedInstances, includes. rewrite list_elem_of_filter.
  by rewrite bool_decide_eq_true.
Qed.

Lemma initEffect_active (ts : gmap string TerminalSession.t)
    (allInstances : list EC2Instance.t) (p : string) (w : World) :
  params_instances env = Some p → allInstances ≠ [] →
  initEffect env ts allInstances w =
  mkWorld (initialSessions (selectedInstances env allInstances))
    (selectAll w) (sockets w)
    (effects w ++
     ((λ instance,
         SetTimeout (ConnectToInstanceCb ts (EC2Instance.instanceId instance))
                    500) <$> selectedInstances env allInstances))
    (clock w).
Proof.
  intros Hp Hall. unfold initEffect. rewrite bool_decide_eq_true_2.
  - rewrite andThen_apply, forEachArr_schedule. reflexivity.
  - unfold instanceIds. rewrite Hp. split.
    + destruct p as [|c p]; simpl; [lia|].
      case_decide; [simpl; lia|]. destruct (split _ p); simpl; lia.
    + destruct allInstances; [done | simpl; lia].
Qed.

Lemma selectedInstances_listed (allInstances : list EC2Instance.t)
    (p : string) :
  params_instances env = Some p →
  selectedInstances env allInstances =
  filter (λ inst, EC2Instance.instanceId inst ∈ split ","%char p)
         allInstances.
Proof.
  intros Hp. unfold selectedInstances, includes, instanceIds. rewrite Hp.
  apply list_filter_iff. intros inst. apply bool_decide_eq_true.
Qed.

Lemma initEffect_sessions (ts : gmap string TerminalSession.t)
    (allInstances : list EC2Instance.t) (p : string) (w : World) :
  params_instances env = Some p → allInstances ≠ [] →
  sessions (initEffect env ts allInstances w) =
  initialSessions
    (filter (λ inst, EC2Instance.instanceId inst ∈ split ","%char p)
            allInstances).
Proof.
  intros Hp Hall. rewrite (initEffect_active ts allInstances p w Hp Hall).
  simpl. by rewrite (selectedInstances_listed allInstances p Hp).
Qed.

Lemma initEffect_scheduled (ts : gmap string TerminalSession.t)
    (allInstances : list EC2Instance.t) (p : string) (w : World) :
  params_instances env = Some p → allInstances ≠ [] →
  scheduledConnects (effects (initEffect env ts allInstances w)) =
  scheduledConnects (effects w) ++
  (EC2Instance.instanceId <$>
   filter (λ inst, EC2Instance.instanceId inst ∈ split ","%char p)
          allInstances).
Proof.
  intros Hp Hall. rewrite (initEffect_active ts allInstances p w Hp Hall).
  simpl. rewrite (selectedInstances_listed allInstances p Hp).
  unfold scheduledConnects at 1. rewrite omap_app.
  fold (scheduledConnects (effects w)). f_equal.
  apply scheduledConnects_timers.
Qed.

Lemma listed_known_NoDup (allInstances : list EC2Instance.t)
    (listed : list string) :
  NoDup (EC2Instance.instanceId <$> allInstances) →
  NoDup (EC2Instance.instanceId <$>
         filter (λ inst, EC2Instance.instanceId inst ∈ listed) allInstances).
Proof.
  intros Hnd. eapply sublist_NoDup; [exact Hnd|].
  apply fmap_sublist, sublist_filter.
Qed.

End Launch.

(** C9 as the code has it.  With the launch parameter [p] and a loaded,
    non-empty inventory, the effect registers a session for an identifier
    exactly when the identifier is listed in [p] (split at commas) and is the
    [instanceId] of an instance of the inventory; the session is the initial,
    disconnected one for such an instance.  It schedules one
    [connectToInstance] call for each instance of the inventory whose
    identifier is listed, so that, when no two instances of the inventory
    share an identifier, exactly one call is scheduled for each registered
    session and none for any other identifier. *)
Theorem initEffect_opens_listed_known_targets (env : Env)
    (ts : gmap string TerminalSession.t) (allInstances : list EC2Instance.t)
    (p : string) (w : World) :
  params_instances env = Some p →
  allInstances ≠ [] →
  let listed := split ","%char p in
  let w' := TerminalManagementPage.initEffect env ts allInstances w in
  let scheduled :=
    EC2Instance.instanceId <$>
    filter (λ inst, EC2Instance.instanceId inst ∈ listed) allInstances in
  (∀ i, is_Some (sessions w' !! i) ↔
        i ∈ listed ∧ i ∈ EC2Instance.instanceId <$> allInstances) ∧
  (∀ i s, sessions w' !! i = Some s →
          ∃ inst, inst ∈ allInstances ∧ EC2Instance.instanceId inst = i ∧
                  s = TerminalManagementPage.initialSession inst) ∧
  scheduledConnects (effects w') = scheduledConnects (effects w) ++ scheduled ∧
  (∀ i, i ∈ scheduled ↔ is_Some (sessions w' !! i)) ∧
  (NoDup (EC2Instance.instanceId <$> allInstances) → NoDup scheduled).
Proof.
  intros Hp Hall listed w' scheduled.
  assert (Hmem : ∀ i, i ∈ scheduled ↔
                      i ∈ listed ∧ i ∈ EC2Instance.instanceId <$> allInstances).
  { intros i. unfold scheduled. rewrite !list_elem_of_fmap. split.
    - intros (inst & -> & Hin). apply list_elem_of_filter in Hin as [??].
      eauto.
    - intros (Hl & inst & -> & Hin). exists inst. split; [done|].
      by apply list_elem_of_filter. }
  assert (Hsome : ∀ i, is_Some (sessions w' !! i) ↔ i ∈ scheduled).
  { intros i. subst w'. rewrite (initEffect_sessions env _ _ p w Hp Hall).
    apply initialSessions_is_Some. }
  split; [|split; [|split; [|split]]].
  - intros i. by rewrite Hsome, Hmem.
  - intros i s. subst w'. rewrite (initEffect_sessions env _ _ p w Hp Hall).
    intros Hs. apply initialSessions_lookup_Some in Hs.
    destruct Hs as (inst & Hin & Hid & Heq).
    apply list_elem_of_filter in Hin as [_ Hin]. eauto.
  - by apply initEffect_scheduled.
  - intros i. by rewrite Hsome.
  - apply listed_known_NoDup.
Qed.

Lemma initEffect_opens_listed_known_targets_witness :
  scheduledConnects (effects Run.started) = ["i-1"; "i-2"].
Proof.
  refine (proj1 (proj2 (proj2
    (initEffect_opens_listed_known_targets Run.env ∅ [Run.web; Run.db]
       "i-1,i-2" (initialWorld 1000) _ _)))).
  - reflexivity.
  - discriminate.
Defined.

(** C9 as stated fails: the launch parameter lists "i-1" and "i-9", the
    inventory knows no "i-9", and the view registers no session and schedules
    no connection for "i-9". *)
Lemma initEffect_skips_unknown_target :
  TerminalManagementPage.instanceIds Run.envUnknown = ["i-1"; "i-9"] ∧
  sessions Run.startedUnknown !! "i-9" = None ∧
  size (sessions Run.startedUnknown) = 1 ∧
  scheduledConnects (effects Run.startedUnknown) = ["i-1"].
Proof. repeat split; vm_compute; reflexivity. Qed.

(** A timer set by the effect calls the [connectToInstance] of the render
    that ran the effect; when that render still had the empty registry, the
    call finds no session: it shows the "Terminal session not found" toast
    and constructs no socket. *)
Lemma initEffect_timer_in_first_render (env : Env) (i : string) (w : World) :
  TerminalManagementPage.runCallback env (ConnectToInstanceCb ∅ i) w =
  toast (mkToast "Connection error" "Terminal session not found"
                 (Some "destructive")) w.
Proof. simpl. apply connectToInstance_not_found. apply lookup_empty. Qed.

(** ** Each open session has a socket of its own *)

Lemma NoDup_omap_inj {A B : Type} (f : A → option B) (l : list A) :
  NoDup l →
  (∀ x y z, x ∈ l → y ∈ l → f x = Some z → f y = Some z → x = y) →
  NoDup (omap f l).
Proof.
  induction 1 as [|x l Hx Hnd IH]; intros Hinj; [constructor|].
  cbn [omap list_omap]. destruct (f x) as [z|] eqn:Hfx.
  - constructor.
    + rewrite list_elem_of_omap. intros (y & Hy & Hfy).
      apply Hx. rewrite (Hinj x y z); [done|..]; try done.
      * apply list_elem_of_here.
      * by apply list_elem_of_further.
    + apply IH. intros a b c Ha Hb. apply Hinj; by apply list_elem_of_further.
  - apply IH. intros a b c Ha Hb. apply Hinj; by apply list_elem_of_further.
Qed.

(** In a reachable state the sockets [exitTerminals] closes are pairwise
    different: one per session that holds a socket. *)
Lemma reachable_openSockets_NoDup (env : Env) (w : World) :
  reachable env w → NoDup (openSockets (sessions w)).
Proof.
  intros Hreach. pose proof (reachable_ownSockets env w Hreach) as Hown.
  unfold openSockets. apply NoDup_omap_inj; [apply NoDup_map_to_list|].
  intros [i si] [j sj] h Hi Hj Hwi Hwj. simpl in Hwi, Hwj.
  apply elem_of_map_to_list in Hi, Hj.
  destruct (Hown i si h Hi Hwi) as (socki & Hsi & Hbi).
  destruct (Hown j sj h Hj Hwj) as (sockj & Hsj & Hbj).
  assert (i = j) as -> by congruence. congruence.
Qed.

(** ** Identifiers of the opened sessions *)

(** C4 as the code has it.  A duplicate is registered under the identifier
    [`${source}_duplicate_${Date.now()}`]: two [duplicateSession] calls that
    differ in their source session or in the millisecond at which they run
    yield two different identifiers, and each differs from the identifier of
    its own source.  The sessions opened from the launch parameter are
    registered under the [instanceId] of their targets, which are pairwise
    different when no two instances of the inventory share an identifier. *)
Theorem session_identifiers_distinct :
  (∀ (ts1 ts2 : gmap string TerminalSession.t) (X1 X2 : string)
     (s1 s2 : TerminalSession.t) (w1 w2 : World),
     ts1 !! X1 = Some s1 → ts2 !! X2 = Some s2 →
     X1 ≠ X2 ∨ clock w1 ≠ clock w2 →
     let w1' := TerminalManagementPage.duplicateSession ts1 X1 w1 in
     let w2' := TerminalManagementPage.duplicateSession ts2 X2 w2 in
     ∃ id1 id2,
       scheduledConnects (effects w1') =
         scheduledConnects (effects w1) ++ [id1] ∧
       scheduledConnects (effects w2') =
         scheduledConnects (effects w2) ++ [id2] ∧
       is_Some (sessions w1' !! id1) ∧ is_Some (sessions w2' !! id2) ∧
       id1 ≠ id2 ∧ id1 ≠ X1 ∧ id2 ≠ X2) ∧
  (∀ (env : Env) (ts : gmap string TerminalSession.t)
     (allInstances : list EC2Instance.t) (p : string) (w : World),
     params_instances env = Some p → allInstances ≠ [] →
     NoDup (EC2Instance.instanceId <$> allInstances) →
     let w' := TerminalManagementPage.initEffect env ts allInstances w in
     ∃ ids,
       scheduledConnects (effects w') = scheduledConnects (effects w) ++ ids ∧
       NoDup ids ∧
       (∀ i, i ∈ ids ↔ is_Some (sessions w' !! i))).
Proof.
  split.
  - intros ts1 ts2 X1 X2 s1 s2 w1 w2 H1 H2 Hdiff w1' w2'.
    destruct (duplicateSession_effect ts1 X1 s1 w1 H1) as (Hm1 & He1 & _).
    destruct (duplicateSession_effect ts2 X2 s2 w2 H2) as (Hm2 & He2 & _).
    exists (TerminalManagementPage.duplicateId X1 (clock w1)),
           (TerminalManagementPage.duplicateId X2 (clock w2)).
    subst w1' w2'. rewrite Hm1, Hm2, !lookup_insert_eq.
    repeat split; try done; try apply duplicateId_ne_source.
    intros Heq. apply duplicateId_inj in Heq. destruct Heq.
    by destruct Hdiff.
  - intros env ts allInstances p w Hp Hall Hnd w'.
    exists (EC2Instance.instanceId <$>
            filter (λ inst, EC2Instance.instanceId inst ∈ split ","%char p)
                   allInstances).
    split; [by apply initEffect_scheduled|].
    split; [by apply listed_known_NoDup|].
    intros i. subst w'. rewrite (initEffect_sessions env _ _ p w Hp Hall).
    symmetry. apply initialSessions_is_Some.
Qed.

Lemma session_identifiers_distinct_witness :
  ∃ id1 id2,
    scheduledConnects
      (effects (TerminalManagementPage.duplicateSession
                  (sessions Run.streaming) "i-1" Run.streaming)) =
      scheduledConnects (effects Run.streaming) ++ [id1] ∧
    scheduledConnects
      (effects (TerminalManagementPage.duplicateSession
                  (sessions Run.streaming) "i-1" (tick 1 Run.streaming))) =
      scheduledConnects (effects (tick 1 Run.streaming)) ++ [id2] ∧
    is_Some (sessions (TerminalManagementPage.duplicateSession
                         (sessions Run.streaming) "i-1" Run.streaming)
               !! id1) ∧
    is_Some (sessions (TerminalManagementPage.duplicateSession
                         (sessions Run.streaming) "i-1"
                         (tick 1 Run.streaming)) !! id2) ∧
    id1 ≠ id2 ∧ id1 ≠ "i-1" ∧ id2 ≠ "i-1".
Proof.
  refine (proj1 session_identifiers_distinct (sessions Run.streaming)
            (sessions Run.streaming) "i-1" "i-1"
            (TerminalSession.mk "i-1" Run.web true
               [TerminalOutput.mk "1000" "system"
                  (Some "Connected to web (10.0.0.1)") (Some "i-1")]
               "" (Some 0) false)
            (TerminalSession.mk "i-1" Run.web true
               [TerminalOutput.mk "1000" "system"
                  (Some "Connected to web (10.0.0.1)") (Some "i-1")]
               "" (Some 0) false)
            Run.streaming (tick 1 Run.streaming) _ _ _).
  - vm_compute. reflexivity.
  - vm_compute. reflexivity.
  - right. vm_compute. discriminate.
Defined.

(** C4 as stated fails: two duplications of "i-1" within one millisecond
    yield the same identifier, so the four sessions opened in the run (two
    from the launch parameter, two duplicates) do not have four identifiers,
    and the registry holds three entries. *)
Lemma duplicateSession_same_millisecond_collides :
  scheduledConnects (effects Run.duplicatedTwice) =
    ["i-1"; "i-2"; "i-1_duplicate_1000"; "i-1_duplicate_1000"] ∧
  ¬ NoDup (scheduledConnects (effects Run.duplicatedTwice)) ∧
  size (sessions Run.duplicatedTwice) = 3.
Proof.
  assert (scheduledConnects (effects Run.duplicatedTwice) =
          ["i-1"; "i-2"; "i-1_duplicate_1000"; "i-1_duplicate_1000"]) as Heq
    by (vm_compute; reflexivity).
  split; [done|]. split; [|vm_compute; reflexivity].
  rewrite Heq. intros Hnd.
  apply NoDup_cons in Hnd as [_ Hnd]. apply NoDup_cons in Hnd as [_ Hnd].
  apply NoDup_cons in Hnd as [Hin _]. apply Hin, list_elem_of_here.
Qed.

(** C7 as stated fails: the identifier of a duplicate need not be fresh, and
    the call need not create a session.  In the state reached by duplicating
    the first pane of the run, that pane is registered, and so is the
    identifier that a second duplication within the same millisecond
    computes: the second call sets the entry under that identifier again,
    and the registry has the three entries it had. *)
Lemma duplicateSession_reuses_identifier :
  reachable Run.env duplicatedOnce ∧
  is_Some (sessions duplicatedOnce !! "i-1") ∧
  TerminalManagementPage.duplicateId "i-1" (clock duplicatedOnce) =
    "i-1_duplicate_1000" ∧
  is_Some (sessions duplicatedOnce !! "i-1_duplicate_1000") ∧
  sessions duplicatedAgain = sessions duplicatedOnce ∧
  size (sessions duplicatedAgain) = 3 ∧
  size (sessions duplicatedOnce) = 3.
Proof.
  split; [|split; [|split; [|split; [|split; [|split]]]]].
  - destruct streaming_reachable as [now Hrtc]. exists now.
    eapply rtc_r; [exact Hrtc|]. apply step_duplicateSession.
  - vm_compute. eauto.
  - vm_compute. reflexivity.
  - vm_compute. eauto.
  - vm_compute. reflexivity.
  - vm_compute. reflexivity.
  - vm_compute. reflexivity.
Qed.

(** * Further properties *)

(** ** Invariants of the registry *)

Section Keeps.
Context (env : Env) (P : string → TerminalSession.t → Prop).
Context (HP : SessionInvariant P).
Import TerminalManagementPage.

Lemma keeps_skip : keeps P skip.
Proof. by intros w. Qed.

Lemma keeps_andThen (a b : Action) : keeps P a → keeps P b → keeps P (a >>> b).
Proof. intros Ha Hb w Hw. by apply Hb, Ha. Qed.

Lemma keeps_perform (e : Effect) : keeps P (perform e).
Proof. by intros w. Qed.

Lemma keeps_tick (d : N) : keeps P (tick d).
Proof. by intros w. Qed.

Lemma keeps_newWebSocket (sock : WebSocket.t) : keeps P (newWebSocket sock).
Proof. by intros w. Qed.

Lemma keeps_updateAt (i : string) (f : TerminalSession.t → TerminalSession.t) :
  (∀ s, P i s → P i (f s)) → keeps P (setTerminalSessions (updateAt i f)).
Proof.
  intros Hf w Hw j s'. rewrite sessions_set, updateAt_lookup.
  case_decide as Hij; [subst j|by apply Hw].
  destruct (sessions w !! i) as [s|] eqn:Hs; [|done].
  intros [= <-]. by apply Hf, Hw.
Qed.

Lemma keeps_addOutput i ty c : keeps P (addOutput env i ty c).
Proof.
  intros w. rewrite addOutput_unfold.
  apply (keeps_updateAt i (appendFrame (frame env w ty c i))).
  intros s. by apply (inv_frame P HP).
Qed.

Lemma keeps_clearConnection i : keeps P (clearConnection i).
Proof.
  rewrite clearConnection_unfold. apply keeps_updateAt.
  intros s. apply (inv_clear P HP).
Qed.

Lemma keeps_forEachArr {A : Type} (f : A → Action) (l : list A) :
  (∀ x, keeps P (f x)) → keeps P (forEachArr f l).
Proof.
  intros Hf. induction l as [|x l IH] using rev_ind.
  - apply keeps_skip.
  - intros w. unfold forEachArr. rewrite foldl_snoc.
    apply (keeps_andThen (forEachArr f l) (f x) IH (Hf x) w).
Qed.

Lemma keeps_forEach (f : TerminalSession.t → Action) ts :
  (∀ x, keeps P (f x)) → keeps P (forEach f ts).
Proof. intros Hf. apply (keeps_forEachArr (λ kv, f kv.2)). auto. Qed.

Lemma keeps_closeSocket s : keeps P (closeSocket s).
Proof.
  unfold closeSocket. destruct (TerminalSession.ws s);
    [apply keeps_perform | apply keeps_skip].
Qed.

Lemma keeps_onopen h i s c : keeps P (onopen env h i s c).
Proof.
  unfold onopen. repeat apply keeps_andThen.
  - apply (keeps_updateAt i
             (TerminalSession.with_connection (Some h) true)).
    intros s0. apply (inv_open P HP).
  - apply keeps_addOutput.
  - apply keeps_perform.
Qed.

Lemma keeps_onmessage i data : keeps P (onmessage env i data).
Proof.
  unfold onmessage. destruct data; [case_decide|];
    auto using keeps_skip, keeps_addOutput.
Qed.

Lemma keeps_onerror i : keeps P (onerror env i).
Proof.
  unfold onerror. apply keeps_andThen;
    auto using keeps_addOutput, keeps_clearConnection.
Qed.

Lemma keeps_onclose i : keeps P (onclose env i).
Proof.
  unfold onclose. apply keeps_andThen;
    auto using keeps_addOutput, keeps_clearConnection.
Qed.

Lemma keeps_dispatch h ev : keeps P (dispatch env h ev).
Proof.
  intros w. unfold dispatch. destruct (sockets w !! h) as [sock|]; [|done].
  destruct ev.
  - apply keeps_onopen.
  - apply keeps_onmessage.
  - apply keeps_onerror.
  - apply keeps_onclose.
Qed.

Lemma keeps_connectToInstance ts i : keeps P (connectToInstance env ts i).
Proof.
  unfold connectToInstance. destruct (ts !! i); [|apply keeps_perform].
  destruct (webSocket_throws env);
    [apply keeps_addOutput | apply keeps_newWebSocket].
Qed.

Lemma keeps_sendCommand ts i c : keeps P (sendCommand env ts i c).
Proof.
  unfold sendCommand. destruct (ts !! i) as [s|]; [|apply keeps_skip].
  destruct (TerminalSession.ws s); [|apply keeps_skip].
  destruct (TerminalSession.isConnected s); [|apply keeps_skip].
  repeat apply keeps_andThen.
  - apply keeps_addOutput.
  - apply keeps_perform.
  - apply (keeps_updateAt i (TerminalSession.with_currentCommand "")).
    intros s0. apply (inv_sent P HP).
Qed.

Lemma keeps_toggleSelectAll b : keeps P (toggleSelectAll b).
Proof.
  intros w Hw i s'. unfold toggleSelectAll. simpl. rewrite lookup_fmap.
  destruct (sessions w !! i) as [s|] eqn:Hs; [|done].
  intros [= <-]. by apply (inv_select P HP), Hw.
Qed.

Lemma keeps_toggleTerminalSelection i : keeps P (toggleTerminalSelection i).
Proof.
  apply (keeps_updateAt i
           (λ s, TerminalSession.with_isSelected
                   (negb (TerminalSession.isSelected s)) s)).
  intros s. apply (inv_select P HP).
Qed.

Lemma keeps_disconnectSelected ts : keeps P (disconnectSelected ts).
Proof.
  unfold disconnectSelected. case_decide; [apply keeps_perform|].
  apply keeps_andThen; [|apply keeps_perform].
  apply keeps_forEachArr. intros s. apply keeps_andThen.
  - destruct (TerminalSession.ws s); [apply keeps_perform | apply keeps_skip].
  - apply (keeps_updateAt (TerminalSession.instanceId s)).
    intros s0. apply (inv_clear P HP).
Qed.

Lemma keeps_duplicateSession ts i : keeps P (duplicateSession ts i).
Proof.
  intros w. unfold duplicateSession.
  destruct (ts !! i) as [s|]; [|apply keeps_skip]. cbv zeta.
  intros Hw j s'. rewrite !andThen_apply.
  change (sessions (toast ?t ?w0)) with (sessions w0).
  change (sessions (perform ?e ?w0)) with (sessions w0).
  rewrite sessions_set.
  destruct (decide (duplicateId i (clock w) = j)) as [<-|Hne].
  - rewrite lookup_insert_eq. intros [= <-]. apply (inv_duplicate P HP).
  - rewrite lookup_insert_ne by done. apply Hw.
Qed.

Lemma keeps_closeTerminal ts i : keeps P (closeTerminal ts i).
Proof.
  unfold closeTerminal. apply keeps_andThen.
  - destruct (ts !! i); [apply keeps_closeSocket | apply keeps_skip].
  - intros w Hw j s'. rewrite sessions_set. intros Hs'.
    apply lookup_delete_Some in Hs' as [_ Hs']. by apply Hw.
Qed.

Lemma keeps_exitTerminals ts : keeps P (exitTerminals ts).
Proof.
  unfold exitTerminals. repeat apply keeps_andThen;
    auto using keeps_perform, keeps_forEach, keeps_closeSocket.
  apply keeps_perform.
Qed.

Lemma keeps_unmountCleanup ts : keeps P (unmountCleanup ts).
Proof. apply keeps_forEach, keeps_closeSocket. Qed.

Lemma keeps_handleFileUpload ts f : keeps P (handleFileUpload env ts f).
Proof.
  unfold handleFileUpload. case_decide; [apply keeps_perform|].
  apply keeps_andThen; [|apply keeps_perform].
  apply keeps_forEachArr. intros s. apply keeps_andThen;
    [apply keeps_addOutput | apply keeps_sendCommand].
Qed.

Lemma initialSessions_all (selected : list EC2Instance.t) i s :
  initialSessions selected !! i = Some s → P i s.
Proof.
  induction selected as [|x l IH] using rev_ind.
  - unfold initialSessions. simpl. by rewrite lookup_empty.
  - unfold initialSessions. rewrite foldl_snoc.
    fold (initialSessions l).
    destruct (decide (EC2Instance.instanceId x = i)) as [<-|Hne].
    + rewrite lookup_insert_eq. intros [= <-]. apply (inv_initial P HP).
    + by rewrite lookup_insert_ne.
Qed.

Lemma keeps_initEffect ts allInstances : keeps P (initEffect env ts allInstances).
Proof.
  unfold initEffect. case_bool_decide; [|apply keeps_skip].
  apply keeps_andThen.
  - intros w _ i s. rewrite sessions_set. apply initialSessions_all.
  - apply keeps_forEachArr. intros x. apply keeps_perform.
Qed.

Lemma step_keeps w w' : step env w w' → sessionsAll P w → sessionsAll P w'.
Proof.
  intros Hstep. destruct Hstep as
    [ts all w|cb w|h ev w|ts i c w|b w|i w|ts w|ts i w|ts i w|ts w|ts f w|ts w
    |d w].
  - apply keeps_initEffect.
  - destruct cb. apply keeps_connectToInstance.
  - apply keeps_dispatch.
  - apply keeps_sendCommand.
  - apply keeps_toggleSelectAll.
  - apply keeps_toggleTerminalSelection.
  - apply keeps_disconnectSelected.
  - apply keeps_duplicateSession.
  - apply keeps_closeTerminal.
  - apply keeps_exitTerminals.
  - apply keeps_handleFileUpload.
  - apply keeps_unmountCleanup.
  - apply keeps_tick.
Qed.

Lemma reachable_sessionsAll w : reachable env w → sessionsAll P w.
Proof.
  intros [now Hrtc]. revert w Hrtc. apply rtc_ind_r.
  - intros i s. unfold initialWorld. simpl. by rewrite lookup_empty.
  - intros w1 w2 _ Hstep IH. by eapply step_keeps.
Qed.

End Keeps.

Lemma keyed_invariant :
  SessionInvariant (λ i s, TerminalSession.instanceId s = i).
Proof. by split. Qed.

(** X1.  In every reachable state of the page each session is registered
    under its own [instanceId], so no two sessions of the registry carry the
    same identifier. *)
Theorem registry_keyed_by_session_id (env : Env) (w : World) :
  reachable env w →
  (∀ i s, sessions w !! i = Some s → TerminalSession.instanceId s = i) ∧
  (∀ i j si sj,
     sessions w !! i = Some si → sessions w !! j = Some sj →
     TerminalSession.instanceId si = TerminalSession.instanceId sj → i = j).
Proof.
  intros Hreach.
  pose proof (reachable_sessionsAll env _ keyed_invariant w Hreach) as Hkey.
  split; [exact Hkey|]. intros i j si sj Hi Hj Heq.
  by rewrite <- (Hkey i si Hi), <- (Hkey j sj Hj).
Qed.

Lemma registry_keyed_by_session_id_witness :
  TerminalSession.instanceId
    (TerminalSession.mk "i-2" Run.db true
       [TerminalOutput.mk "1000" "system"
          (Some "Connected to db (10.0.0.2)") (Some "i-2")]
       "" (Some 1) false) = "i-2".
Proof.
  refine (proj1 (registry_keyed_by_session_id Run.env Run.streaming
                   streaming_reachable) "i-2" _ _).
  vm_compute. reflexivity.
Defined.

Lemma coherent_invariant :
  SessionInvariant
    (λ _ s, TerminalSession.isConnected s = true ↔
            is_Some (TerminalSession.ws s)).
Proof.
  split; simpl; intros; try done;
    (split; [try done; eauto | try done; by intros [??]]).
Qed.

(** X2.  In every reachable state of the page a session is marked connected
    exactly when it holds a socket: [isConnected] and [ws] are set and
    cleared together. *)
Theorem connected_iff_socket (env : Env) (w : World) (i : string)
    (s : TerminalSession.t) :
  reachable env w →
  sessions w !! i = Some s →
  TerminalSession.isConnected s = true ↔ is_Some (TerminalSession.ws s).
Proof.
  intros Hreach Hs.
  exact (reachable_sessionsAll env _ coherent_invariant w Hreach i s Hs).
Qed.

Lemma connected_iff_socket_witness :
  TerminalSession.isConnected
    (TerminalSession.mk "i-1" Run.web true
       [TerminalOutput.mk "1000" "system"
          (Some "Connected to web (10.0.0.1)") (Some "i-1")]
       "" (Some 0) false) = true ↔
  is_Some (Some 0).
Proof.
  refine (connected_iff_socket Run.env Run.streaming "i-1" _
            streaming_reachable _).
  vm_compute. reflexivity.
Defined.

Lemma tagged_invariant :
  SessionInvariant
    (λ i s, Forall (λ fr, TerminalOutput.instanceId fr = Some i)
                   (TerminalSession.output s)).
Proof.
  split; simpl; intros; try done; try (by constructor).
  apply Forall_app. split; [done|]. by repeat constructor.
Qed.

(** X3.  In every reachable state of the page every frame in the output log
    of a session carries the identifier of that session: no log holds a
    frame that was made for another pane. *)
Theorem log_frames_belong_to_session (env : Env) (w : World) (i : string)
    (s : TerminalSession.t) (fr : TerminalOutput.t) :
  reachable env w →
  sessions w !! i = Some s →
  fr ∈ TerminalSession.output s →
  TerminalOutput.instanceId fr = Some i.
Proof.
  intros Hreach Hs Hfr.
  pose proof (reachable_sessionsAll env _ tagged_invariant w Hreach i s Hs)
    as Hall.
  by apply (proj1 (Forall_forall _ _) Hall).
Qed.

Lemma log_frames_belong_to_session_witness :
  TerminalOutput.instanceId
    (TerminalOutput.mk "1000" "system" (Some "Connected to db (10.0.0.2)")
                       (Some "i-2")) = Some "i-2".
Proof.
  refine (log_frames_belong_to_session Run.env Run.streaming "i-2"
            (TerminalSession.mk "i-2" Run.db true
               [TerminalOutput.mk "1000" "system"
                  (Some "Connected to db (10.0.0.2)") (Some "i-2")]
               "" (Some 1) false)
            _ streaming_reachable _ _).
  - vm_compute. reflexivity.
  - apply list_elem_of_here.
Defined.

Lemma noPending_invariant :
  SessionInvariant (λ _ s, TerminalSession.currentCommand s = "").
Proof. by split. Qed.

(** X4.  The management page never stores a pending command: in every
    reachable state the [currentCommand] of every session is the empty
    string. *)
Theorem page_never_buffers_a_command (env : Env) (w : World) (i : string)
    (s : TerminalSession.t) :
  reachable env w →
  sessions w !! i = Some s →
  TerminalSession.currentCommand s = "".
Proof.
  intros Hreach Hs.
  exact (reachable_sessionsAll env _ noPending_invariant w Hreach i s Hs).
Qed.

Lemma page_never_buffers_a_command_witness :
  TerminalSession.currentCommand
    (TerminalSession.mk "i-2" Run.db true
       [TerminalOutput.mk "1000" "system"
          (Some "Connected to db (10.0.0.2)") (Some "i-2")]
       "" (Some 1) false) = "".
Proof.
  refine (page_never_buffers_a_command Run.env Run.streaming "i-2" _
            streaming_reachable _).
  vm_compute. reflexivity.
Defined.

(** ** Closing one pane *)

Lemma updateAt_None {V : Type} (i : string) (f : V → V) (m : gmap string V) :
  m !! i = None → updateAt i f m = m.
Proof. intros Hi. unfold updateAt. by rewrite Hi. Qed.

Lemma world_eq (w w' : World) :
  sessions w = sessions w' → selectAll w = selectAll w' →
  sockets w = sockets w' → effects w = effects w' → clock w = clock w' →
  w = w'.
Proof. destruct w, w'. simpl. by intros -> -> -> -> ->. Qed.

Lemma closeCalls_snoc_other (tr : list Effect) (e : Effect) :
  (∀ h, e ≠ WsClose h) → closeCalls (tr ++ [e]) = closeCalls tr.
Proof.
  intros He. rewrite closeCalls_app. destruct e; simpl;
    try by rewrite app_nil_r. by destruct (He websocket).
Qed.

(** X5.  [closeTerminal(X)] removes the entry of [X] from the registry and
    calls [close()] on the socket that [X] holds in the render of the
    handler, if it holds one; it calls [close()] on no other socket and
    leaves every other entry as it was. *)
Theorem closeTerminal_removes_one_pane
    (ts : gmap string TerminalSession.t) (X : string) (w : World) :
  let w' := TerminalManagementPage.closeTerminal ts X w in
  sessions w' !! X = None ∧
  (∀ Y, Y ≠ X → sessions w' !! Y = sessions w !! Y) ∧
  closeCalls (effects w') =
    closeCalls (effects w) ++
    match ts !! X with
    | Some s => option_list (TerminalSession.ws s)
    | None => []
    end ∧
  sockets w' = sockets w.
Proof.
  intros w'. subst w'. unfold TerminalManagementPage.closeTerminal.
  rewrite andThen_apply, sessions_set.
  split; [apply lookup_delete_eq|].
  split; [intros Y HY; rewrite lookup_delete_ne by done|].
  - destruct (ts !! X) as [s|]; [|done].
    unfold TerminalManagementPage.closeSocket.
    by destruct (TerminalSession.ws s).
  - destruct (ts !! X) as [s|]; simpl; [|by rewrite app_nil_r].
    unfold TerminalManagementPage.closeSocket.
    destruct (TerminalSession.ws s) as [h|]; simpl.
    + by rewrite closeCalls_app.
    + by rewrite app_nil_r.
Qed.

Lemma dispatch_bound (env : Env) h sock ev w :
  sockets w !! h = Some sock →
  TerminalManagementPage.dispatch env h ev w =
  match ev with
  | TerminalManagementPage.Open =>
      TerminalManagementPage.onopen env h (WebSocket.instanceId sock)
        (WebSocket.session sock) (WebSocket.credentialId sock) w
  | TerminalManagementPage.Message data =>
      TerminalManagementPage.onmessage env (WebSocket.instanceId sock) data w
  | TerminalManagementPage.Error =>
      TerminalManagementPage.onerror env (WebSocket.instanceId sock) w
  | TerminalManagementPage.Close =>
      TerminalManagementPage.onclose env (WebSocket.instanceId sock) w
  end.
Proof.
  intros Hsock. unfold TerminalManagementPage.dispatch. by rewrite Hsock.
Qed.

Lemma addOutput_absent (env : Env) i ty c w :
  sessions w !! i = None → TerminalManagementPage.addOutput env i ty c w = w.
Proof.
  intros Hi. rewrite addOutput_unfold. apply world_eq; try done.
  rewrite sessions_set. by apply updateAt_None.
Qed.

Lemma clearConnection_absent i w :
  sessions w !! i = None → TerminalManagementPage.clearConnection i w = w.
Proof.
  intros Hi. rewrite clearConnection_unfold. apply world_eq; try done.
  rewrite sessions_set. by apply updateAt_None.
Qed.

Lemma onopen_absent (env : Env) h i s c w :
  sessions w !! i = None →
  TerminalManagementPage.onopen env h i s c w =
  perform (WsSend h
             (ConnectMsg (EC2Instance.privateIp (TerminalSession.instance s))
                "ec2-user"
                (EC2Instance.keyName (TerminalSession.instance s))
                (EC2Instance.region (TerminalSession.instance s)) c i)) w.
Proof.
  intros Hi. unfold TerminalManagementPage.onopen. rewrite !andThen_apply.
  assert (setTerminalSessions
            (updateAt i (TerminalSession.with_connection (Some h) true)) w = w)
    as Hupd.
  { apply world_eq; try done. rewrite sessions_set. by apply updateAt_None. }
  change (setTerminalSessions _ w) with
    (setTerminalSessions
       (updateAt i (TerminalSession.with_connection (Some h) true)) w).
  rewrite Hupd. by rewrite addOutput_absent.
Qed.

(** X6.  Events of a socket whose pane is no longer registered never bring
    the pane back: the registry and the sockets stay as they are.  A message,
    error or close event then has no effect at all, but when the socket
    opens the connect request for the closed pane is still sent on it. *)
Theorem events_of_a_closed_pane (env : Env) (h : nat) (sock : WebSocket.t)
    (ev : TerminalManagementPage.WsEvent) (w : World) :
  sockets w !! h = Some sock →
  sessions w !! WebSocket.instanceId sock = None →
  let w' := TerminalManagementPage.dispatch env h ev w in
  let inst := TerminalSession.instance (WebSocket.session sock) in
  sessions w' = sessions w ∧ sockets w' = sockets w ∧
  effects w' =
    effects w ++
    match ev with
    | TerminalManagementPage.Open =>
        [WsSend h (ConnectMsg (EC2Instance.privateIp inst) "ec2-user"
                     (EC2Instance.keyName inst) (EC2Instance.region inst)
                     (WebSocket.credentialId sock)
                     (WebSocket.instanceId sock))]
    | _ => []
    end.
Proof.
  intros Hsock Habsent w' inst. subst w'.
  rewrite (dispatch_bound env h sock ev w Hsock). destruct ev.
  - by rewrite onopen_absent.
  - unfold TerminalManagementPage.onmessage. rewrite app_nil_r.
    destruct data as [d|]; [|done]. case_decide; [|done].
    by rewrite addOutput_absent.
  - unfold TerminalManagementPage.onerror. rewrite andThen_apply, app_nil_r.
    by rewrite addOutput_absent, clearConnection_absent.
  - unfold TerminalManagementPage.onclose. rewrite andThen_apply, app_nil_r.
    by rewrite addOutput_absent, clearConnection_absent.
Qed.

(** X7.  A pane that is closed while its socket is still connecting keeps
    its connection: [closeTerminal] finds no socket on the session and calls
    no [close()], and when the socket opens the connect request of the
    closed pane is sent all the same. *)
Theorem closing_a_connecting_pane_keeps_its_socket (env : Env)
    (ts : gmap string TerminalSession.t) (X : string) (s : TerminalSession.t)
    (w : World) :
  ts !! X = Some s →
  TerminalSession.ws s = None →
  webSocket_throws env = None →
  let h := length (sockets w) in
  let inst := TerminalSession.instance s in
  let w' :=
    (TerminalManagementPage.connectToInstance env ts X
     >>> TerminalManagementPage.closeTerminal ts X
     >>> TerminalManagementPage.dispatch env h TerminalManagementPage.Open) w
  in
  sessions w' !! X = None ∧
  effects w' =
    effects w ++
    [WsSend h (ConnectMsg (EC2Instance.privateIp inst) "ec2-user"
                 (EC2Instance.keyName inst) (EC2Instance.region inst)
                 (number_or (EC2Instance.credentialId inst) 1) X)] ∧
  closeCalls (effects w') = closeCalls (effects w).
Proof.
  intros Hs Hws Hthrow h inst w'. subst w'. rewrite !andThen_apply.
  rewrite (connectToInstance_found env ts X s w Hs Hthrow).
  set (sock := WebSocket.mk (TerminalManagementPage.wsUrl env) X s
                 (number_or (EC2Instance.credentialId inst) 1)).
  set (w1 := TerminalManagementPage.closeTerminal ts X (newWebSocket sock w)).
  assert (sessions w1 !! X = None) as Hgone.
  { subst w1. unfold TerminalManagementPage.closeTerminal.
    rewrite andThen_apply, sessions_set. apply lookup_delete_eq. }
  assert (effects w1 = effects w) as Heff.
  { subst w1. unfold TerminalManagementPage.closeTerminal.
    rewrite andThen_apply, Hs. unfold TerminalManagementPage.closeSocket.
    by rewrite Hws. }
  assert (sockets w1 !! h = Some sock) as Hsock.
  { subst w1. unfold TerminalManagementPage.closeTerminal.
    rewrite andThen_apply, Hs. unfold TerminalManagementPage.closeSocket.
    rewrite Hws. simpl. by rewrite lookup_app_r, Nat.sub_diag. }
  rewrite (dispatch_bound env h sock _ w1 Hsock).
  rewrite onopen_absent by done.
  change (sessions (perform ?e ?w0)) with (sessions w0).
  change (effects (perform ?e ?w0)) with (effects w0 ++ [e]).
  rewrite Heff. split; [done|]. split; [done|].
  by rewrite closeCalls_snoc_other.
Qed.

Lemma closing_a_connecting_pane_keeps_its_socket_witness :
  closeCalls
    (effects
       ((TerminalManagementPage.connectToInstance Run.env
           (sessions Run.started) "i-2"
         >>> TerminalManagementPage.closeTerminal (sessions Run.started) "i-2"
         >>> TerminalManagementPage.dispatch Run.env 0
               TerminalManagementPage.Open) Run.started)) =
  closeCalls (effects Run.started).
Proof.
  refine (proj2 (proj2
    (closing_a_connecting_pane_keeps_its_socket Run.env
       (sessions Run.started) "i-2"
       (TerminalManagementPage.initialSession Run.db) Run.started _ _ _))).
  - vm_compute. reflexivity.
  - reflexivity.
  - reflexivity.
Defined.

Lemma events_of_a_closed_pane_witness :
  sessions
    (TerminalManagementPage.dispatch Run.env 0 TerminalManagementPage.Close
       (TerminalManagementPage.closeTerminal (sessions Run.streaming) "i-1"
          Run.streaming)) =
  sessions
    (TerminalManagementPage.closeTerminal (sessions Run.streaming) "i-1"
       Run.streaming).
Proof.
  refine (proj1
    (events_of_a_closed_pane Run.env 0
       (WebSocket.mk "wss://bridge.example/ssh-ws" "i-1"
          (TerminalManagementPage.initialSession Run.web) 1)
       TerminalManagementPage.Close
       (TerminalManagementPage.closeTerminal (sessions Run.streaming) "i-1"
          Run.streaming) _ _)).
  - vm_compute. reflexivity.
  - vm_compute. reflexivity.
Defined.

(** ** Failing to connect *)


(** ** Selecting and disconnecting panes *)

Section Selection.
Import TerminalManagementPage.




Lemma toggle_twice (s : TerminalSession.t) :
  TerminalSession.with_isSelected
    (negb (TerminalSession.isSelected
             (TerminalSession.with_isSelected
                (negb (TerminalSession.isSelected s)) s)))
    (TerminalSession.with_isSelected (negb (TerminalSession.isSelected s)) s)
  = s.
Proof. destruct s as [? ? ? ? ? ? b]. simpl. by rewrite negb_involutive. Qed.

(** X10.  Toggling the selection of one pane twice restores the whole state:
    [toggleTerminalSelection] is its own inverse. *)
Theorem toggleTerminalSelection_twice (i : string) (w : World) :
  toggleTerminalSelection i (toggleTerminalSelection i w) = w.
Proof.
  apply world_eq; try done. unfold toggleTerminalSelection.
  rewrite !sessions_set. apply map_eq. intros j.
  change (match ?m !! i with
          | Some session => <[i := ?f session]> ?m
          | None => ?m
          end) with (updateAt i f m).
  set (f := λ s, TerminalSession.with_isSelected
                   (negb (TerminalSession.isSelected s)) s).
  change (updateAt i f (updateAt i f (sessions w)) !! j = sessions w !! j).
  rewrite !updateAt_lookup. case_decide; [|done].
  destruct (sessions w !! j) as [s|]; [|done]. simpl. f_equal.
  apply toggle_twice.
Qed.

Lemma selectedCount_all (b : bool) (l : list TerminalSession.t) :
  TerminalManagementPageView.selectedCount
    (TerminalSession.with_isSelected b <$> l) =
  if b then length l else 0.
Proof.
  unfold TerminalManagementPageView.selectedCount.
  induction l as [|s l IH]; [by destruct b|].
  rewrite fmap_cons, filter_cons. destruct b; simpl in *.
  - by rewrite IH.
  - exact IH.
Qed.

(** X11.  "Select All", clicked in a render whose flag is [b], gives every
    pane the selection state [!b] and changes nothing else about any pane,
    so that the header then counts all panes as selected, or none. *)
Theorem toggleSelectAll_effect (b : bool) (w : World) :
  let w' := toggleSelectAll b w in
  selectAll w' = negb b ∧
  (∀ i, sessions w' !! i =
        TerminalSession.with_isSelected (negb b) <$> sessions w !! i) ∧
  TerminalManagementPageView.selectedCount
    (TerminalManagementPageView.sessionsOf (sessions w')) =
    (if negb b then size (sessions w) else 0) ∧
  effects w' = effects w ∧ sockets w' = sockets w.
Proof.
  intros w'. subst w'. unfold toggleSelectAll. simpl.
  split; [done|]. split; [intros i; apply lookup_fmap|].
  split; [|done].
  unfold TerminalManagementPageView.sessionsOf.
  rewrite map_to_list_fmap, <- list_fmap_compose.
  rewrite (list_fmap_ext
             (snd ∘ prod_map id (TerminalSession.with_isSelected (negb b)))
             (TerminalSession.with_isSelected (negb b) ∘ snd)
             (map_to_list (sessions w))) by (by intros ? [??]).
  rewrite list_fmap_compose, selectedCount_all.
  destruct (negb b); [|done]. by rewrite length_fmap, length_map_to_list.
Qed.

End Selection.

(** ** Uploading a file to the connected panes *)

Section Upload.
Context (env : Env).
Import TerminalManagementPage.

Lemma sendCommand_effects ts i c w :
  effects (sendCommand env ts i c w) = effects w ++ commandSent ts i c ∧
  sockets (sendCommand env ts i c w) = sockets w ∧
  ∀ j, j ≠ i → sessions (sendCommand env ts i c w) !! j = sessions w !! j.
Proof.
  unfold sendCommand, commandSent. destruct (ts !! i) as [s|];
    [|by rewrite app_nil_r].
  destruct (TerminalSession.ws s) as [h|]; [|by rewrite app_nil_r].
  destruct (TerminalSession.isConnected s); [|by rewrite app_nil_r].
  rewrite !andThen_apply. split; [done|]. split; [done|].
  intros j Hj. rewrite sessions_set.
  change (match ?m !! i with
          | Some currentSession => <[i := ?f currentSession]> ?m
          | None => ?m
          end) with (updateAt i f m).
  rewrite updateAt_lookup_ne by done.
  change (sessions (perform ?e ?w0)) with (sessions w0).
  rewrite addOutput_sessions. by rewrite decide_False.
Qed.

Lemma uploadOne_effects ts f s w :
  effects (uploadOne env ts f s w) =
    effects w ++
    commandSent ts (TerminalSession.instanceId s) ("scp " +:+ f +:+ " ./") ∧
  sockets (uploadOne env ts f s w) = sockets w ∧
  ∀ j, j ≠ TerminalSession.instanceId s →
       sessions (uploadOne env ts f s w) !! j = sessions w !! j.
Proof.
  unfold uploadOne. rewrite andThen_apply.
  destruct (sendCommand_effects ts (TerminalSession.instanceId s)
              ("scp " +:+ f +:+ " ./")
              (addOutput env (TerminalSession.instanceId s) "system"
                 (Some ("Uploading " +:+ f +:+ "...")) w))
    as (He & Hk & Hs).
  rewrite He, Hk. split; [done|]. split; [done|].
  intros j Hj. rewrite Hs by done. rewrite addOutput_sessions.
  by rewrite decide_False.
Qed.

Lemma uploadOne_loop ts f (l : list TerminalSession.t) w :
  effects (forEachArr (uploadOne env ts f) l w) =
    effects w ++
    mbind (λ s, commandSent ts (TerminalSession.instanceId s)
                  ("scp " +:+ f +:+ " ./")) l ∧
  sockets (forEachArr (uploadOne env ts f) l w) = sockets w ∧
  ∀ j, j ∉ TerminalSession.instanceId <$> l →
       sessions (forEachArr (uploadOne env ts f) l w) !! j = sessions w !! j.
Proof.
  unfold forEachArr. revert w. induction l as [|s l IH]; intros w.
  - cbn [foldl]. split; [simpl; by rewrite app_nil_r|]. by split.
  - cbn [foldl]. destruct (IH (uploadOne env ts f s w)) as (He & Hk & Hs).
    destruct (uploadOne_effects ts f s w) as (He1 & Hk1 & Hs1).
    split; [|split].
    + rewrite He, He1, <- app_assoc. done.
    + by rewrite Hk, Hk1.
    + intros j Hj. rewrite fmap_cons in Hj.
      apply not_elem_of_cons in Hj as [Hj1 Hj2].
      rewrite Hs by done. by apply Hs1.
Qed.

Lemma handleFileUpload_unfold ts f w :
  handleFileUpload env ts f w =
  let connectedSessions :=
    filter (λ session, TerminalSession.isConnected session = true)
           (map_to_list ts).*2 in
  if decide (length connectedSessions = 0) then
    toast (mkToast "No connected terminals"
             "Please wait for terminals to connect before uploading files"
             (Some "destructive")) w
  else
    (forEachArr (uploadOne env ts f) connectedSessions
     >>> toast (mkToast "File upload initiated"
                  ("Uploading " +:+ f +:+ " to " +:+
                   pretty (length connectedSessions) +:+ " terminal(s)")
                  None)) w.
Proof. unfold handleFileUpload. cbv zeta. by case_decide. Qed.

Lemma sendCalls_app (l k : list Effect) :
  sendCalls (l ++ k) = sendCalls l ++ sendCalls k.
Proof. apply omap_app. Qed.

Lemma sendCalls_commandSent_loop ts c (l : list TerminalSession.t) :
  (∀ i s, ts !! i = Some s → TerminalSession.instanceId s = i) →
  (∀ s, s ∈ l → ts !! TerminalSession.instanceId s = Some s ∧
                 TerminalSession.isConnected s = true) →
  sendCalls (mbind (λ s, commandSent ts (TerminalSession.instanceId s) c) l) =
  omap (λ s, (λ h, (h, CommandMsg c (TerminalSession.instanceId s)))
             <$> TerminalSession.ws s) l.
Proof.
  intros Hkey Hl. induction l as [|s l IH]; [done|].
  cbn [mbind list_bind omap list_omap]. rewrite sendCalls_app.
  rewrite IH by (intros s' Hs'; apply Hl; by apply list_elem_of_further).
  destruct (Hl s (list_elem_of_here _ _)) as [Hs Hc].
  unfold commandSent at 1. rewrite Hs, Hc.
  by destruct (TerminalSession.ws s).
Qed.

End Upload.

(** X12.  [handleFileUpload] for a file [f], run in a render whose sessions
    are registered under their own identifiers: when no session is connected
    it only shows the destructive toast "No connected terminals"; otherwise
    it sends the command [scp f ./] exactly once to each connected session
    that holds a socket, on that socket, constructs no socket, and leaves the
    entry of every session that is not connected as it was. *)
Theorem handleFileUpload_effect (env : Env)
    (ts : gmap string TerminalSession.t) (f : string) (w : World) :
  (∀ i s, ts !! i = Some s → TerminalSession.instanceId s = i) →
  let connectedSessions :=
    filter (λ session, TerminalSession.isConnected session = true)
           (map_to_list ts).*2 in
  let w' := TerminalManagementPage.handleFileUpload env ts f w in
  (connectedSessions = [] →
     w' = toast (mkToast "No connected terminals"
                   "Please wait for terminals to connect before uploading files"
                   (Some "destructive")) w) ∧
  (connectedSessions ≠ [] →
     sendCalls (effects w') =
       sendCalls (effects w) ++
       omap (λ s, (λ h, (h, CommandMsg ("scp " +:+ f +:+ " ./")
                              (TerminalSession.instanceId s)))
                  <$> TerminalSession.ws s) connectedSessions ∧
     sockets w' = sockets w ∧
     (∀ j, j ∉ TerminalSession.instanceId <$> connectedSessions →
           sessions w' !! j = sessions w !! j)).
Proof.
  intros Hkey conn w'. subst w'. rewrite handleFileUpload_unfold.
  cbv zeta. fold conn. split.
  - intros Hc. rewrite Hc. by rewrite decide_True.
  - intros Hc. rewrite decide_False by (by destruct conn).
    rewrite andThen_apply.
    destruct (uploadOne_loop env ts f conn w) as (He & Hk & Hs).
    change (effects (toast ?t ?w0)) with (effects w0 ++ [ShowToast t]).
    change (sessions (toast ?t ?w0)) with (sessions w0).
    change (sockets (toast ?t ?w0)) with (sockets w0).
    rewrite He. split; [|by split].
    rewrite !sendCalls_app. simpl. rewrite app_nil_r. f_equal.
    apply sendCalls_commandSent_loop; [done|].
    intros s Hs'. apply list_elem_of_filter in Hs' as [Hc' Hin].
    split; [|done]. apply list_elem_of_fmap in Hin as ([i s'] & -> & Hin).
    apply elem_of_map_to_list in Hin. simpl.
    by rewrite (Hkey i s' Hin).
Qed.

Lemma handleFileUpload_effect_witness :
  sendCalls (effects (TerminalManagementPage.handleFileUpload Run.env
                        (sessions Run.streaming) "a.txt" Run.streaming)) =
  sendCalls (effects Run.streaming) ++
  [(0, CommandMsg "scp a.txt ./" "i-1"); (1, CommandMsg "scp a.txt ./" "i-2")].
Proof.
  refine (proj1 (proj2
    (handleFileUpload_effect Run.env (sessions Run.streaming) "a.txt"
       Run.streaming _) _)).
  - exact (reachable_sessionsAll Run.env _ keyed_invariant Run.streaming
             streaming_reachable).
  - vm_compute. discriminate.
Defined.

(** ** From the open socket to the first command *)

Section OpenThenSend.
Context (env : Env).
Import TerminalManagementPage.

Lemma onopen_sessions h i s0 c w j :
  sessions (onopen env h i s0 c w) !! j =
  if decide (i = j) then
    (λ s, appendFrame
            (frame env w "system"
               (Some ("Connected to " +:+
                      EC2Instance.name (TerminalSession.instance s0) +:+
                      " (" +:+
                      EC2Instance.privateIp (TerminalSession.instance s0) +:+
                      ")")) i)
            (TerminalSession.with_connection (Some h) true s))
    <$> sessions w !! j
  else sessions w !! j.
Proof.
  unfold onopen. rewrite !andThen_apply.
  change (sessions (perform ?e ?w0)) with (sessions w0).
  rewrite addOutput_sessions.
  change (setTerminalSessions _ w) with
    (setTerminalSessions
       (updateAt i (TerminalSession.with_connection (Some h) true)) w).
  rewrite sessions_set, updateAt_lookup.
  case_decide; [|done]. by rewrite <- option_fmap_compose.
Qed.

Lemma onopen_effects h i s0 c w :
  effects (onopen env h i s0 c w) =
  effects w ++
  [WsSend h (ConnectMsg (EC2Instance.privateIp (TerminalSession.instance s0))
               "ec2-user"
               (EC2Instance.keyName (TerminalSession.instance s0))
               (EC2Instance.region (TerminalSession.instance s0)) c i)] ∧
  sockets (onopen env h i s0 c w) = sockets w.
Proof. by unfold onopen. Qed.

End OpenThenSend.

(** X13.  Once the socket [h] made for a registered session [X] has opened,
    [X] is connected on [h]: a command sent from the next render goes out on
    that same socket, right after the connect request, and the log of [X]
    has gained the "Connected to ..." frame followed by the echo of the
    command.  No other session is touched. *)
Theorem command_follows_connect_request (env : Env) (h : nat)
    (sock : WebSocket.t) (s : TerminalSession.t) (c : string) (w : World) :
  let X := WebSocket.instanceId sock in
  let inst := TerminalSession.instance (WebSocket.session sock) in
  sockets w !! h = Some sock →
  sessions w !! X = Some s →
  let w1 :=
    TerminalManagementPage.dispatch env h TerminalManagementPage.Open w in
  let w2 := TerminalManagementPage.sendCommand env (sessions w1) X c w1 in
  sendCalls (effects w2) =
    sendCalls (effects w) ++
    [(h, ConnectMsg (EC2Instance.privateIp inst) "ec2-user"
           (EC2Instance.keyName inst) (EC2Instance.region inst)
           (WebSocket.credentialId sock) X);
     (h, CommandMsg c X)] ∧
  (TerminalSession.isConnected <$> sessions w2 !! X) = Some true ∧
  (TerminalSession.ws <$> sessions w2 !! X) = Some (Some h) ∧
  logOf (sessions w2) X =
    Some (TerminalSession.output s ++
          [frame env w "system"
             (Some ("Connected to " +:+ EC2Instance.name inst +:+ " (" +:+
                    EC2Instance.privateIp inst +:+ ")")) X;
           frame env w "input" (Some ("$ " +:+ c)) X]) ∧
  (∀ Y, Y ≠ X → sessions w2 !! Y = sessions w !! Y).
Proof.
  intros X inst Hsock Hs w1 w2.
  assert (w1 = TerminalManagementPage.onopen env h X (WebSocket.session sock)
                 (WebSocket.credentialId sock) w) as Hw1
    by (subst w1; by rewrite (dispatch_bound env h sock _ w Hsock)).
  set (s1 := appendFrame
               (frame env w "system"
                  (Some ("Connected to " +:+ EC2Instance.name inst +:+ " (" +:+
                         EC2Instance.privateIp inst +:+ ")")) X)
               (TerminalSession.with_connection (Some h) true s)).
  assert (sessions w1 !! X = Some s1) as Hs1.
  { rewrite Hw1, onopen_sessions, decide_True by done. by rewrite Hs. }
  assert (∀ Y, Y ≠ X → sessions w1 !! Y = sessions w !! Y) as Hother.
  { intros Y HY. rewrite Hw1, onopen_sessions. by rewrite decide_False. }
  destruct (onopen_effects env h X (WebSocket.session sock)
              (WebSocket.credentialId sock) w) as [He1 Hk1].
  rewrite <- Hw1 in He1, Hk1.
  subst w2.
  rewrite (sendCommand_live env (sessions w1) X c s1 h w1 Hs1 eq_refl eq_refl).
  rewrite !andThen_apply.
  assert (∀ j, sessions
             (setTerminalSessions
                (updateAt X (TerminalSession.with_currentCommand ""))
                (perform (WsSend h (CommandMsg c X))
                   (TerminalManagementPage.addOutput env X "input"
                      (Some ("$ " +:+ c)) w1))) !! j =
           if decide (X = j) then
             (λ s0, TerminalSession.with_currentCommand ""
                      (appendFrame
                         (frame env w1 "input" (Some ("$ " +:+ c)) X) s0))
             <$> sessions w1 !! j
           else sessions w1 !! j) as Hlook.
  { intros j. rewrite sessions_set, updateAt_lookup.
    change (sessions (perform ?e ?w0)) with (sessions w0).
    rewrite addOutput_sessions. case_decide; [|done].
    by rewrite <- option_fmap_compose. }
  assert (clock w1 = clock w) as Hclock by (by rewrite Hw1).
  split; [|split; [|split; [|split]]].
  - change (effects (setTerminalSessions ?u ?w0)) with (effects w0).
    change (effects (perform ?e ?w0)) with (effects w0 ++ [e]).
    change (effects (TerminalManagementPage.addOutput env ?a ?b ?d ?w0))
      with (effects w0).
    rewrite He1, !sendCalls_app. simpl. by rewrite <- app_assoc.
  - by rewrite Hlook, decide_True, Hs1.
  - by rewrite Hlook, decide_True, Hs1.
  - unfold logOf. rewrite Hlook, decide_True, Hs1 by done. simpl.
    unfold frame. rewrite Hclock. by rewrite <- app_assoc.
  - intros Y HY. rewrite Hlook, decide_False by done. by apply Hother.
Qed.

Lemma command_follows_connect_request_witness :
  sendCalls
    (effects
       (TerminalManagementPage.sendCommand Run.env
          (sessions (TerminalManagementPage.dispatch Run.env 0
                       TerminalManagementPage.Open Run.connecting))
          "i-1" "ls"
          (TerminalManagementPage.dispatch Run.env 0
             TerminalManagementPage.Open Run.connecting))) =
  sendCalls (effects Run.connecting) ++
  [(0, ConnectMsg "10.0.0.1" "ec2-user" "key-a" "us-east-1" 1 "i-1");
   (0, CommandMsg "ls" "i-1")].
Proof.
  refine (proj1
    (command_follows_connect_request Run.env 0
       (WebSocket.mk "wss://bridge.example/ssh-ws" "i-1"
          (TerminalManagementPage.initialSession Run.web) 1)
       (TerminalManagementPage.initialSession Run.web) "ls" Run.connecting
       _ _)).
  - vm_compute. reflexivity.
  - vm_compute. reflexivity.
Defined.

(** X14.  After an error or close event on the socket of session [X], input
    for [X] sent from the next render is dropped without a trace, while
    every other session that is connected still sends its command on its own
    socket. *)
Theorem failed_pane_drops_input_others_send (env : Env) (h : nat)
    (sock : WebSocket.t) (ev : TerminalManagementPage.WsEvent) (c : string)
    (w : World) :
  let X := WebSocket.instanceId sock in
  sockets w !! h = Some sock →
  ev = TerminalManagementPage.Error ∨ ev = TerminalManagementPage.Close →
  let w1 := TerminalManagementPage.dispatch env h ev w in
  TerminalManagementPage.sendCommand env (sessions w1) X c w1 = w1 ∧
  (∀ Y sy hy,
     Y ≠ X → sessions w !! Y = Some sy →
     TerminalSession.ws sy = Some hy →
     TerminalSession.isConnected sy = true →
     effects (TerminalManagementPage.sendCommand env (sessions w1) Y c w1) =
     effects w1 ++ [WsSend hy (CommandMsg c Y)]).
Proof.
  intros X Hsock Hev w1.
  assert (∀ s1, sessions w1 !! X = Some s1 → TerminalSession.ws s1 = None)
    as Hcleared.
  { intros s1. subst w1. rewrite (dispatch_bound env h sock ev w Hsock).
    destruct Hev as [-> | ->].
    - rewrite onerror_sessions, decide_True by done.
      destruct (sessions w !! X); [|done]. by intros [= <-].
    - rewrite onclose_sessions, decide_True by done.
      destruct (sessions w !! X); [|done]. by intros [= <-]. }
  assert (∀ Y, Y ≠ X → sessions w1 !! Y = sessions w !! Y) as Hother.
  { intros Y HY. subst w1. rewrite (dispatch_bound env h sock ev w Hsock).
    destruct Hev as [-> | ->].
    - rewrite onerror_sessions. by rewrite decide_False.
    - rewrite onclose_sessions. by rewrite decide_False. }
  split.
  - destruct (sessions w1 !! X) as [s1|] eqn:Hs1.
    + apply sendCommand_idle with s1; [done|]. left. by apply Hcleared.
    + unfold TerminalManagementPage.sendCommand. by rewrite Hs1.
  - intros Y sy hy HY Hsy Hws Hc.
    assert (sessions w1 !! Y = Some sy) as Hsy1 by (by rewrite Hother).
    by rewrite (sendCommand_live env (sessions w1) Y c sy hy w1 Hsy1 Hws Hc).
Qed.

Lemma failed_pane_drops_input_others_send_witness :
  TerminalManagementPage.sendCommand Run.env
    (sessions (TerminalManagementPage.dispatch Run.env 0
                 TerminalManagementPage.Error Run.streaming))
    "i-1" "ls"
    (TerminalManagementPage.dispatch Run.env 0 TerminalManagementPage.Error
       Run.streaming) =
  TerminalManagementPage.dispatch Run.env 0 TerminalManagementPage.Error
    Run.streaming.
Proof.
  refine (proj1
    (failed_pane_drops_input_others_send Run.env 0
       (WebSocket.mk "wss://bridge.example/ssh-ws" "i-1"
          (TerminalManagementPage.initialSession Run.web) 1)
       TerminalManagementPage.Error "ls" Run.streaming _ _)).
  - vm_compute. reflexivity.
  - left. reflexivity.
Defined.

(** ** Timers and the render they belong to *)

Lemma timers_app (l k : list Effect) : timers (l ++ k) = timers l ++ timers k.
Proof. apply omap_app. Qed.

Lemma timers_scheduled (ts : gmap string TerminalSession.t)
    (l : list EC2Instance.t) :
  timers ((λ instance,
             SetTimeout
               (ConnectToInstanceCb ts (EC2Instance.instanceId instance)) 500)
          <$> l) =
  (λ instance, ConnectToInstanceCb ts (EC2Instance.instanceId instance)) <$> l.
Proof. induction l as [|x l IH]; simpl; [done | f_equal; exact IH]. Qed.

(** X15.  The connection of a duplicate is scheduled with the
    [connectToInstance] of the render that duplicated the pane.  Unless that
    render already had a session under the new identifier, the timer finds
    no session when it fires: it shows the toast "Terminal session not
    found", constructs no socket and leaves the duplicate disconnected. *)
Theorem duplicate_is_not_connected_by_its_timer (env : Env)
    (ts : gmap string TerminalSession.t) (X : string) (s : TerminalSession.t)
    (w : World) :
  ts !! X = Some s →
  let newId := TerminalManagementPage.duplicateId X (clock w) in
  ts !! newId = None →
  let w1 := TerminalManagementPage.duplicateSession ts X w in
  timers (effects w1) = timers (effects w) ++ [ConnectToInstanceCb ts newId] ∧
  (∀ w2,
     TerminalManagementPage.runCallback env (ConnectToInstanceCb ts newId) w2 =
     toast (mkToast "Connection error" "Terminal session not found"
                    (Some "destructive")) w2).
Proof.
  intros Hs newId Hnew w1. split.
  - subst w1. rewrite (duplicateSession_unfold ts X s w Hs). cbv zeta.
    rewrite !andThen_apply.
    change (effects (toast ?t ?w0)) with (effects w0 ++ [ShowToast t]).
    change (effects (perform ?e ?w0)) with (effects w0 ++ [e]).
    rewrite !timers_app. simpl. by rewrite app_nil_r.
  - intros w2. simpl. by apply connectToInstance_not_found.
Qed.

Lemma duplicate_is_not_connected_by_its_timer_witness :
  TerminalManagementPage.runCallback Run.env
    (ConnectToInstanceCb (sessions Run.streaming) "i-1_duplicate_1000")
    Run.streaming =
  toast (mkToast "Connection error" "Terminal session not found"
                 (Some "destructive")) Run.streaming.
Proof.
  refine (proj2
    (duplicate_is_not_connected_by_its_timer Run.env (sessions Run.streaming)
       "i-1"
       (TerminalSession.mk "i-1" Run.web true
          [TerminalOutput.mk "1000" "system"
             (Some "Connected to web (10.0.0.1)") (Some "i-1")]
          "" (Some 0) false)
       Run.streaming _ _) Run.streaming).
  - vm_compute. reflexivity.
  - vm_compute. reflexivity.
Defined.

(** X16.  The effect that opens the launch parameter schedules its
    [connectToInstance] calls with the registry of the render in which it
    runs.  For every identifier that this registry does not hold -- all of
    them when the effect runs in the first render, whose registry is empty --
    the timer only shows the toast "Terminal session not found" when it
    fires, and constructs no socket. *)
Theorem launch_timers_look_into_the_old_registry (env : Env)
    (ts : gmap string TerminalSession.t) (allInstances : list EC2Instance.t)
    (p : string) (w : World) :
  params_instances env = Some p →
  allInstances ≠ [] →
  let w1 := TerminalManagementPage.initEffect env ts allInstances w in
  timers (effects w1) =
    timers (effects w) ++
    ((λ instance, ConnectToInstanceCb ts (EC2Instance.instanceId instance))
     <$> filter (λ inst, EC2Instance.instanceId inst ∈ split ","%char p)
                allInstances) ∧
  (∀ i w2,
     ts !! i = None →
     TerminalManagementPage.runCallback env (ConnectToInstanceCb ts i) w2 =
     toast (mkToast "Connection error" "Terminal session not found"
                    (Some "destructive")) w2).
Proof.
  intros Hp Hall w1. split.
  - subst w1. rewrite (initEffect_active env ts allInstances p w Hp Hall).
    simpl. rewrite (selectedInstances_listed env allInstances p Hp).
    rewrite timers_app. f_equal. apply timers_scheduled.
  - intros i w2 Hi. simpl. by apply connectToInstance_not_found.
Qed.

Lemma launch_timers_look_into_the_old_registry_witness :
  timers (effects Run.started) =
  [ConnectToInstanceCb ∅ "i-1"; ConnectToInstanceCb ∅ "i-2"].
Proof.
  refine (proj1
    (launch_timers_look_into_the_old_registry Run.env ∅ [Run.web; Run.db]
       "i-1,i-2" (initialWorld 1000) _ _)).
  - reflexivity.
  - discriminate.
Defined.

(** An effect without dependencies runs in the first render only. *)
Lemma latestRun_no_deps {Render Dep : Type} `{EqDecision Dep}
    (ran prev : Render) (later : list Render) :
  latestRun (λ _, @nil Dep) ran prev later = ran.
Proof.
  revert prev. induction later as [|r later IH]; intros prev; [done|].
  simpl. destruct (decide (@nil Dep = [])); [apply IH|done].
Qed.

(** An effect runs again in a render in which a dependency has changed: the
    cleanup that is pending after that render closes over its constants. *)
Lemma latestRun_changed {Render Dep : Type} `{EqDecision Dep}
    (deps : Render → list Dep) (ran prev r : Render) (later : list Render) :
  deps r ≠ deps (List.last later prev) →
  latestRun deps ran prev (later ++ [r]) = r.
Proof.
  revert ran prev. induction later as [|x later IH]; intros ran prev Hr.
  - simpl in *. by destruct (decide (deps r = deps prev)).
  - assert (List.last (x :: later) prev = List.last later x) as Hlast.
    { clear. revert x prev.
      induction later as [|y later IH]; intros x prev; [done|].
      change (List.last (x :: y :: later) prev)
        with (List.last (y :: later) prev).
      by rewrite !IH. }
    rewrite Hlast in Hr.
    simpl. destruct (decide (deps x = deps prev)); by apply IH.
Qed.

(** Bound to the registry of the render in which the page is left, the
    cleanup would close the sockets of that render. *)
Lemma unmountCleanup_closes (ts : gmap string TerminalSession.t) (w : World) :
  closeCalls (effects (TerminalManagementPage.unmountCleanup ts w)) =
  closeCalls (effects w) ++ openSockets ts.
Proof.
  unfold TerminalManagementPage.unmountCleanup.
  rewrite forEach_closeSocket. simpl.
  by rewrite closeCalls_app, closeCalls_closes.
Qed.

(** X17.  The cleanup that the page registers for its unmount is returned by
    an effect whose dependency array is [[]]: the effect runs in the first
    render only, so the cleanup that is pending at the unmount closes over
    the registry of the first render, the empty map of [useState].
    Whatever renders followed and whatever sessions they and the state
    hold, the cleanup calls [close()] on no socket and changes nothing. *)
Theorem unmount_cleanup_closes_no_socket
    (later : list (gmap string TerminalSession.t)) (w : World) :
  let w' := unmount later w in
  w' = w ∧
  closeCalls (effects w') = closeCalls (effects w).
Proof.
  intros w'. subst w'. unfold unmount, useEffect.
  rewrite latestRun_no_deps.
  assert (TerminalManagementPage.unmountCleanup firstRender w = w) as ->;
    [|done].
  apply unmountCleanup_first_render.
Qed.

(** ** [join] and [split] *)

Section JoinSplit.

Local Abbreviation chars := list_ascii_of_string.

Lemma split_nonempty (sep : Ascii.ascii) (s : string) : split sep s ≠ [].
Proof.
  destruct s as [|c s]; simpl; [done|].
  case_decide; [done|]. by destruct (split sep s).
Qed.

Lemma join_cons (sep x : string) (l : list string) :
  l ≠ [] → join sep (x :: l) = x +:+ sep +:+ join sep l.
Proof. by destruct l. Qed.

Lemma join_split (sep : Ascii.ascii) (s : string) :
  join (String sep "") (split sep s) = s.
Proof.
  induction s as [|c s IH]; [done|]. cbn [split].
  case_decide as Hc.
  - rewrite join_cons by apply split_nonempty. rewrite IH. simpl.
    by rewrite Hc.
  - pose proof (split_nonempty sep s) as Hne.
    destruct (split sep s) as [|x xs]; [done|].
    destruct xs as [|y ys].
    + simpl in *. by rewrite IH.
    + rewrite join_cons by done. rewrite join_cons in IH by done.
      simpl. by rewrite <- IH.
Qed.

Lemma split_no_sep (sep : Ascii.ascii) (x : string) :
  sep ∉ chars x → split sep x = [x].
Proof.
  induction x as [|c x IH]; [done|]. simpl. intros Hx.
  apply not_elem_of_cons in Hx as [Hc Hx].
  rewrite decide_False by done. by rewrite IH.
Qed.

Lemma split_app_sep (sep : Ascii.ascii) (x rest : string) :
  sep ∉ chars x →
  split sep (x +:+ String sep rest) = x :: split sep rest.
Proof.
  induction x as [|c x IH]; simpl; intros Hx.
  - by rewrite decide_True.
  - apply not_elem_of_cons in Hx as [Hc Hx].
    rewrite decide_False by done. by rewrite IH.
Qed.

Lemma split_join (sep : Ascii.ascii) (l : list string) :
  l ≠ [] → (∀ x, x ∈ l → sep ∉ chars x) →
  split sep (join (String sep "") l) = l.
Proof.
  induction l as [|x l IH]; [done|]. intros _ Hl.
  destruct (decide (l = [])) as [->|Hne].
  - simpl. apply split_no_sep, Hl, list_elem_of_here.
  - rewrite join_cons by done.
    change (String sep "" +:+ join (String sep "") l)
      with (String sep (join (String sep "") l)).
    rewrite split_app_sep by (apply Hl, list_elem_of_here).
    f_equal. apply IH; [done|]. intros y Hy. by apply Hl, list_elem_of_further.
Qed.

End JoinSplit.

(** X18.  [split(',')] undoes [join(',')]: for every non-empty array of
    strings none of which contains a comma, splitting the joined string at
    the commas gives the array back.  This is a property of the two
    built-ins alone, not of what lies between the place that joins and the
    place that splits. *)
Theorem split_undoes_join (ids : list string) :
  ids ≠ [] →
  (∀ x, x ∈ ids → ","%char ∉ list_ascii_of_string x) →
  split ","%char (join "," ids) = ids.
Proof. apply split_join. Qed.

Lemma split_undoes_join_witness :
  split ","%char (join "," ["i-1"; "i-2"; ""]) = ["i-1"; "i-2"; ""].
Proof.
  refine (split_undoes_join ["i-1"; "i-2"; ""] _ _).
  - discriminate.
  - intros x Hx. repeat (apply elem_of_cons in Hx as [->|Hx]);
      [vm_compute; intros H; repeat (apply elem_of_cons in H as [H|H];
                                      [discriminate|]);
       by apply elem_of_nil in H ..|].
    by apply elem_of_nil in Hx.
Defined.

(** X19.  [split] never returns the empty array, and joining its pieces
    with the separator gives the string back; in particular an empty launch
    parameter yields the one identifier "". *)
Theorem split_keeps_everything (s : string) :
  split ","%char s ≠ [] ∧
  join "," (split ","%char s) = s ∧
  split ","%char "" = [""].
Proof.
  split; [apply split_nonempty|]. split; [apply join_split | done].
Qed.

(** ** Launching the terminal view from the SSH tab *)

Section Launching.

Lemma filter_ext_in {A : Type} (P Q : A → Prop)
    `{!∀ x, Decision (P x)} `{!∀ x, Decision (Q x)} (l : list A) :
  (∀ x, x ∈ l → P x ↔ Q x) → filter P l = filter Q l.
Proof.
  induction l as [|x l IH]; [done|]. intros Hl. rewrite !filter_cons.
  rewrite IH by (intros y Hy; apply Hl; by apply list_elem_of_further).
  destruct (decide (P x)) as [HP|HP], (decide (Q x)) as [HQ|HQ]; try done.
  - destruct HQ. by apply (Hl x (list_elem_of_here _ _)).
  - destruct HP. by apply (Hl x (list_elem_of_here _ _)).
Qed.

Lemma handleConnect_launched (instances : list EC2Instance.t)
    (selected : gset string) :
  SSHTab.instancesToConnect instances selected ≠ [] →
  Forall (λ inst, isFalsy (EC2Instance.credentialId inst) = false)
         (SSHTab.instancesToConnect instances selected) →
  SSHTab.handleConnect instances selected =
  SSHTab.Launched
    ("/terminal-management?instances=" +:+
     join "," (EC2Instance.instanceId <$>
               SSHTab.instancesToConnect instances selected))
    (mkToast "Opening terminal management"
       ("Connecting to " +:+
        pretty (length (SSHTab.instancesToConnect instances selected)) +:+
        " instance(s).") None).
Proof.
  intros Hne Hcred. unfold SSHTab.handleConnect. cbv zeta.
  rewrite decide_False by (by destruct (SSHTab.instancesToConnect _ _)).
  rewrite decide_False; [done|].
  assert (filter (λ instance,
                    isFalsy (EC2Instance.credentialId instance) = true)
                 (SSHTab.instancesToConnect instances selected) = []) as ->;
    [|simpl; lia].
  destruct (filter _ _) as [|inst rest] eqn:Hfilter; [done|].
  assert (inst ∈ inst :: rest) as Hin by apply list_elem_of_here.
  rewrite <- Hfilter in Hin. apply list_elem_of_filter in Hin as [Hf Hin].
  rewrite Forall_forall in Hcred. by rewrite (Hcred inst Hin) in Hf.
Qed.

Lemma handleConnect_inv (instances : list EC2Instance.t)
    (selected : gset string) href t :
  SSHTab.handleConnect instances selected = SSHTab.Launched href t →
  SSHTab.instancesToConnect instances selected ≠ [] ∧
  Forall (λ inst, isFalsy (EC2Instance.credentialId inst) = false)
         (SSHTab.instancesToConnect instances selected).
Proof.
  unfold SSHTab.handleConnect. cbv zeta. case_decide as Hlen; [done|].
  case_decide as Hcred; [done|]. intros _. split.
  - intros Hnil. by rewrite Hnil in Hlen.
  - apply Forall_forall. intros inst Hin.
    destruct (isFalsy (EC2Instance.credentialId inst)) eqn:Hf; [|done].
    destruct Hcred.
    assert (inst ∈ filter (λ instance,
                             isFalsy (EC2Instance.credentialId instance) = true)
                          (SSHTab.instancesToConnect instances selected)) as Hin'
      by (by apply list_elem_of_filter).
    destruct (filter _ _); [by apply elem_of_nil in Hin' | simpl; lia].
Qed.

End Launching.

(** X20.  [handleConnect] launches the terminal view exactly when at least
    one instance of the inventory is selected and every selected instance
    carries a [credentialId] other than 0.  It then navigates to
    [/terminal-management?instances=] followed by the selected identifiers,
    in inventory order, joined with commas; in every other case it only
    shows a destructive toast and does not navigate. *)
Theorem handleConnect_launches_only_with_credentials
    (instances : list EC2Instance.t) (selected : gset string) :
  let toConnect := SSHTab.instancesToConnect instances selected in
  ((∃ href t, SSHTab.handleConnect instances selected =
              SSHTab.Launched href t) ↔
   toConnect ≠ [] ∧
   Forall (λ inst, isFalsy (EC2Instance.credentialId inst) = false)
          toConnect) ∧
  (∀ href t,
     SSHTab.handleConnect instances selected = SSHTab.Launched href t →
     href = "/terminal-management?instances=" +:+
            join "," (EC2Instance.instanceId <$> toConnect)) ∧
  (∀ t, SSHTab.handleConnect instances selected = SSHTab.Refused t →
        variant t = Some "destructive").
Proof.
  intros toConnect. split; [split|split].
  - intros (href & t & H). by apply handleConnect_inv in H.
  - intros [Hne Hcred]. rewrite (handleConnect_launched _ _ Hne Hcred). eauto.
  - intros href t H. pose proof (handleConnect_inv _ _ _ _ H) as [Hne Hcred].
    rewrite (handleConnect_launched _ _ Hne Hcred) in H. by injection H.
  - intros t. unfold SSHTab.handleConnect. cbv zeta.
    repeat case_decide; try done; by intros [= <-].
Qed.

(** X21.  What the SSH tab launches, the terminal view opens.  When
    [handleConnect] launches the view, the page reads the parameter back as
    written, the inventory is the same and no identifier contains a comma,
    then the effect registers a session for exactly the selected instances
    of the inventory and schedules one connection for each of them, in
    inventory order.  The target of every such session carries a
    [credentialId] of its own, so none of them would be connected with the
    fallback credential 1. *)
Theorem launched_view_opens_the_selected_targets (env : Env)
    (instances : list EC2Instance.t) (selected : gset string)
    (href : string) (t : Toast) (ts : gmap string TerminalSession.t)
    (w : World) :
  let toConnect := SSHTab.instancesToConnect instances selected in
  SSHTab.handleConnect instances selected = SSHTab.Launched href t →
  params_instances env =
    Some (join "," (EC2Instance.instanceId <$> toConnect)) →
  (∀ inst, inst ∈ instances →
           ","%char ∉ list_ascii_of_string (EC2Instance.instanceId inst)) →
  let w' := TerminalManagementPage.initEffect env ts instances w in
  (∀ i, is_Some (sessions w' !! i) ↔
        i ∈ selected ∧ i ∈ EC2Instance.instanceId <$> instances) ∧
  scheduledConnects (effects w') =
    scheduledConnects (effects w) ++ (EC2Instance.instanceId <$> toConnect) ∧
  (∀ i s, sessions w' !! i = Some s →
     ∃ c, EC2Instance.credentialId (TerminalSession.instance s) = Some c ∧
          c ≠ 0%Z ∧
          number_or (EC2Instance.credentialId (TerminalSession.instance s)) 1
          = c).
Proof.
  intros toConnect Hlaunch Hp Hcomma w'.
  destruct (handleConnect_inv _ _ _ _ Hlaunch) as [Hne Hcred].
  fold toConnect in Hne, Hcred.
  assert (instances ≠ []) as Hall.
  { intros ->. by apply Hne. }
  assert (split ","%char (join "," (EC2Instance.instanceId <$> toConnect)) =
          EC2Instance.instanceId <$> toConnect) as Hsplit.
  { apply split_join; [by destruct toConnect|].
    intros x Hx. apply list_elem_of_fmap in Hx as (inst & -> & Hin).
    apply Hcomma. by apply list_elem_of_filter in Hin as [_ ?]. }
  assert (filter (λ inst, EC2Instance.instanceId inst ∈
                          split ","%char
                            (join "," (EC2Instance.instanceId <$> toConnect)))
                 instances = toConnect) as Hfilter.
  { rewrite Hsplit. unfold toConnect, SSHTab.instancesToConnect.
    apply filter_ext_in. intros inst Hin. rewrite list_elem_of_fmap. split.
    - intros (inst' & Heq & Hin'). apply list_elem_of_filter in Hin' as [? _].
      by rewrite Heq.
    - intros Hsel. exists inst. split; [done|]. by apply list_elem_of_filter. }
  assert (sessions w' =
          TerminalManagementPage.initialSessions toConnect) as Hsess.
  { subst w'. rewrite (initEffect_sessions env ts instances _ w Hp Hall).
    by rewrite Hfilter. }
  split; [|split].
  - intros i. rewrite Hsess, initialSessions_is_Some.
    unfold toConnect, SSHTab.instancesToConnect. rewrite !list_elem_of_fmap.
    split.
    + intros (inst & -> & Hin). apply list_elem_of_filter in Hin as [??]. eauto.
    + intros (Hsel & inst & -> & Hin). exists inst. split; [done|].
      by apply list_elem_of_filter.
  - subst w'. rewrite (initEffect_scheduled env ts instances _ w Hp Hall).
    by rewrite Hfilter.
  - intros i s Hs. rewrite Hsess in Hs.
    apply initialSessions_lookup_Some in Hs as (inst & Hin & _ & ->).
    rewrite Forall_forall in Hcred. specialize (Hcred inst Hin). simpl.
    destruct (EC2Instance.credentialId inst) as [c|]; [|done]. simpl in Hcred.
    apply bool_decide_eq_false in Hcred. exists c.
    split; [done|]. split; [done|]. unfold number_or. by rewrite decide_False.
Qed.

Lemma launched_view_opens_the_selected_targets_witness :
  scheduledConnects
    (effects
       (TerminalManagementPage.initEffect
          (mkEnv "https:" "bridge.example" (Some "i-2") (λ ms, pretty ms)
                 None)
          ∅ [Run.web; Run.db] (initialWorld 1000))) =
  ["i-2"].
Proof.
  refine (proj1 (proj2
    (launched_view_opens_the_selected_targets
       (mkEnv "https:" "bridge.example" (Some "i-2") (λ ms, pretty ms) None)
       [Run.web; Run.db] {["i-2"]}
       "/terminal-management?instances=i-2"
       (mkToast "Opening terminal management" "Connecting to 1 instance(s)."
                None)
       ∅ (initialWorld 1000) _ _ _))).
  - vm_compute. reflexivity.
  - vm_compute. reflexivity.
  - intros inst Hin.
    apply elem_of_cons in Hin as [->|Hin];
      [|apply list_elem_of_singleton in Hin as ->];
      vm_compute; intros H;
      repeat (apply elem_of_cons in H as [H|H]; [discriminate|]);
      by apply elem_of_nil in H.
Defined.

(** ** The panel area *)

Lemma ceilHalf_bounds (n : nat) :
  ceilHalf n ≤ n ∧ n - ceilHalf n = n / 2 ∧ (3 ≤ n → ceilHalf n < n).
Proof.
  unfold ceilHalf. pose proof (Nat.div_mod_eq n 2) as Hdm.
  pose proof (Nat.mod_upper_bound n 2). lia.
Qed.

(** X22.  The page puts every session of the registry on the screen exactly
    once, in registry order, whatever their number: nothing is shown for an
    empty registry only, and from three sessions on the grid has the first
    [ceil(n/2)] sessions in its top row and the remaining [floor(n/2)],
    at least one, in its bottom row. *)
Theorem page_layout_shows_every_session (sessions : list TerminalSession.t) :
  panels (TerminalManagementPageView.layout sessions) = sessions ∧
  (TerminalManagementPageView.layout sessions = NoTerminals ↔ sessions = []) ∧
  (3 ≤ length sessions →
   ∃ top bottom,
     TerminalManagementPageView.layout sessions = Grid top bottom ∧
     length top = ceilHalf (length sessions) ∧
     length bottom = length sessions / 2 ∧
     bottom ≠ []).
Proof.
  split; [|split].
  - destruct sessions as [|s0 [|s1 [|s2 l]]]; try done.
    unfold TerminalManagementPageView.layout. cbn [panels].
    apply take_drop.
  - destruct sessions as [|s0 [|s1 [|s2 l]]]; by split.
  - intros Hlen. destruct sessions as [|s0 [|s1 [|s2 l]]];
      [simpl in Hlen; lia..|].
    set (ss := s0 :: s1 :: s2 :: l) in *.
    exists (take (ceilHalf (length ss)) ss), (drop (ceilHalf (length ss)) ss).
    destruct (ceilHalf_bounds (length ss)) as (Hle & Hsub & Hlt).
    specialize (Hlt Hlen).
    split; [done|]. split; [rewrite length_take; lia|].
    split; [rewrite length_drop; exact Hsub|].
    intros Hnil.
    assert (length (drop (ceilHalf (length ss)) ss) = 0) as Hzero
      by (by rewrite Hnil).
    rewrite length_drop in Hzero. lia.
Qed.

Lemma page_layout_shows_every_session_witness :
  ∃ top bottom,
    TerminalManagementPageView.layout
      [TerminalManagementPage.initialSession Run.web;
       TerminalManagementPage.initialSession Run.db;
       TerminalManagementPage.initialSession Run.web] = Grid top bottom ∧
    length top = ceilHalf 3 ∧ length bottom = 3 / 2 ∧ bottom ≠ [].
Proof.
  refine (proj2 (proj2
    (page_layout_shows_every_session
       [TerminalManagementPage.initialSession Run.web;
        TerminalManagementPage.initialSession Run.db;
        TerminalManagementPage.initialSession Run.web])) _).
  simpl. lia.
Defined.

(** ** The single-instance view *)

Section Component.
Context (env : Env).

Lemma component_connect_refused (credentialId : option Z) ts X w :
  ts !! X = None ∨ isFalsy credentialId = true →
  TerminalComponent.connectToInstance env credentialId ts X w =
  toast (mkToast "Connection error" "Missing session or credentials"
                 (Some "destructive")) w.
Proof.
  intros Hmiss. unfold TerminalComponent.connectToInstance. cbv zeta.
  destruct (ts !! X) as [s|]; [|done].
  destruct Hmiss as [?|Hf]; [done|].
  destruct credentialId as [c|]; [|done]. simpl in Hf.
  apply bool_decide_eq_true in Hf. by rewrite decide_True.
Qed.

Lemma component_clearConnection_sessions i w j :
  sessions (TerminalComponent.clearConnection i w) !! j =
  if decide (i = j)
  then TerminalSession.with_connection None false <$> sessions w !! j
  else sessions w !! j.
Proof.
  change (TerminalComponent.clearConnection i) with
    (setTerminalSessions
       (updateAt i (TerminalSession.with_connection None false))).
  rewrite sessions_set. apply updateAt_lookup.
Qed.

Lemma component_updateCommand_sessions i c w j :
  sessions (TerminalComponent.updateCommand i c w) !! j =
  if decide (i = j)
  then TerminalSession.with_currentCommand c <$> sessions w !! j
  else sessions w !! j.
Proof.
  change (TerminalComponent.updateCommand i c) with
    (setTerminalSessions
       (updateAt i (TerminalSession.with_currentCommand c))).
  rewrite sessions_set. apply updateAt_lookup.
Qed.

End Component.

(** X23.  In the single-instance view [connectToInstance] refuses to connect
    without a session or without a usable [credentialId] prop (missing, or
    0): it shows the destructive toast "Missing session or credentials" and
    does nothing else.  When it does connect, the connect request sent as
    the socket opens carries the [credentialId] of the prop, whatever the
    target instance itself carries. *)
Theorem component_connects_with_the_prop_credential (env : Env)
    (credentialId : option Z) (ts : gmap string TerminalSession.t)
    (X : string) (w : World) :
  let w' := TerminalComponent.connectToInstance env credentialId ts X w in
  (ts !! X = None ∨ isFalsy credentialId = true →
     w' = toast (mkToast "Connection error" "Missing session or credentials"
                         (Some "destructive")) w) ∧
  (∀ s c,
     ts !! X = Some s → credentialId = Some c → c ≠ 0%Z →
     webSocket_throws env = None →
     sockets w' =
       sockets w ++ [WebSocket.mk (TerminalComponent.wsUrl env) X s c] ∧
     ∀ h w2,
       sendCalls (effects (TerminalComponent.onopen env h X s c w2)) =
       sendCalls (effects w2) ++
       [(h, ConnectMsg
              (EC2Instance.privateIp (TerminalSession.instance s)) "ec2-user"
              (EC2Instance.keyName (TerminalSession.instance s))
              (EC2Instance.region (TerminalSession.instance s)) c X)]).
Proof.
  intros w'. split.
  - apply component_connect_refused.
  - intros s c Hs -> Hc Hthrow. split.
    + by apply component_connectToInstance_new_socket.
    + intros h w2. unfold TerminalComponent.onopen. rewrite !andThen_apply.
      change (effects (toast ?t ?w0)) with (effects w0 ++ [ShowToast t]).
      change (effects (perform ?e ?w0)) with (effects w0 ++ [e]).
      rewrite !sendCalls_app. simpl. by rewrite app_nil_r.
Qed.

(** X24.  [disconnectFromInstance(X)] calls [close()] on the socket [X]
    holds in the render of the handler, if any, and on no other; it clears
    the connection state of [X] and leaves every other entry as it was.  A
    command sent to [X] from the next render is then dropped. *)
Theorem component_disconnect_then_send (env : Env)
    (ts : gmap string TerminalSession.t) (X c : string) (w : World) :
  let w1 := TerminalComponent.disconnectFromInstance ts X w in
  closeCalls (effects w1) =
    closeCalls (effects w) ++
    match ts !! X with
    | Some s => option_list (TerminalSession.ws s)
    | None => []
    end ∧
  sessions w1 !! X =
    TerminalSession.with_connection None false <$> sessions w !! X ∧
  (∀ Y, Y ≠ X → sessions w1 !! Y = sessions w !! Y) ∧
  TerminalComponent.sendCommand env (sessions w1) X c w1 = w1.
Proof.
  intros w1.
  assert (∀ j, sessions w1 !! j =
               if decide (X = j)
               then TerminalSession.with_connection None false
                    <$> sessions w !! j
               else sessions w !! j) as Hlook.
  { intros j. subst w1. unfold TerminalComponent.disconnectFromInstance.
    rewrite andThen_apply, component_clearConnection_sessions.
    destruct (ts !! X) as [s|]; [|done].
    by destruct (TerminalSession.ws s). }
  split; [|split; [|split]].
  - subst w1. unfold TerminalComponent.disconnectFromInstance.
    rewrite andThen_apply.
    change (effects (TerminalComponent.clearConnection ?i ?w0))
      with (effects w0).
    destruct (ts !! X) as [s|]; simpl; [|by rewrite app_nil_r].
    destruct (TerminalSession.ws s); simpl;
      [by rewrite closeCalls_app | by rewrite app_nil_r].
  - by rewrite Hlook, decide_True.
  - intros Y HY. by rewrite Hlook, decide_False.
  - rewrite sendCommand_component.
    destruct (sessions w1 !! X) as [s1|] eqn:Hs1.
    + apply sendCommand_idle with s1; [done|]. left.
      rewrite Hlook, decide_True in Hs1 by done.
      destruct (sessions w !! X); [|done]. by injection Hs1 as <-.
    + unfold TerminalManagementPage.sendCommand. by rewrite Hs1.
Qed.

(** X25.  Typing a command [c] into the input of a connected session [X]
    and pressing Enter in the next render sends exactly the command [c] --
    the empty one too -- on the socket of [X], echoes it into the log of
    [X] and empties the input again.  Any other key does nothing. *)
Theorem component_type_then_enter (env : Env) (X c : string)
    (s : TerminalSession.t) (h : nat) (w : World) :
  sessions w !! X = Some s →
  TerminalSession.ws s = Some h →
  TerminalSession.isConnected s = true →
  let w1 := TerminalComponent.updateCommand X c w in
  let w2 := TerminalComponentView.handleKeyPress env (sessions w1) X "Enter"
              w1 in
  (TerminalSession.currentCommand <$> sessions w1 !! X) = Some c ∧
  effects w2 = effects w ++ [WsSend h (CommandMsg c X)] ∧
  (TerminalSession.currentCommand <$> sessions w2 !! X) = Some "" ∧
  logOf (sessions w2) X =
    Some (TerminalSession.output s ++
          [frame env w "input" (Some ("$ " +:+ c)) X]) ∧
  (∀ ts key w0, key ≠ "Enter" →
     TerminalComponentView.handleKeyPress env ts X key w0 = w0).
Proof.
  intros Hs Hws Hc w1 w2.
  set (s1 := TerminalSession.with_currentCommand c s).
  assert (sessions w1 !! X = Some s1) as Hs1.
  { subst w1. rewrite component_updateCommand_sessions, decide_True by done.
    by rewrite Hs. }
  assert (w2 = (TerminalManagementPage.addOutput env X "input"
                  (Some ("$ " +:+ c))
                >>> perform (WsSend h (CommandMsg c X))
                >>> setTerminalSessions
                      (updateAt X (TerminalSession.with_currentCommand "")))
                 w1) as ->.
  { subst w2. unfold TerminalComponentView.handleKeyPress.
    rewrite decide_True by done. rewrite Hs1, sendCommand_component.
    by apply sendCommand_live with s1. }
  rewrite !andThen_apply.
  assert (∀ j, sessions
             (setTerminalSessions
                (updateAt X (TerminalSession.with_currentCommand ""))
                (perform (WsSend h (CommandMsg c X))
                   (TerminalManagementPage.addOutput env X "input"
                      (Some ("$ " +:+ c)) w1))) !! j =
           if decide (X = j) then
             (λ s0, TerminalSession.with_currentCommand ""
                      (appendFrame
                         (frame env w1 "input" (Some ("$ " +:+ c)) X) s0))
             <$> sessions w1 !! j
           else sessions w1 !! j) as Hlook.
  { intros j. rewrite sessions_set, updateAt_lookup.
    change (sessions (perform ?e ?w0)) with (sessions w0).
    rewrite addOutput_sessions. case_decide; [|done].
    by rewrite <- option_fmap_compose. }
  split; [by rewrite Hs1|]. split; [done|].
  split; [by rewrite Hlook, decide_True, Hs1|]. split.
  - unfold logOf. by rewrite Hlook, decide_True, Hs1.
  - intros ts key w0 Hkey. unfold TerminalComponentView.handleKeyPress.
    by rewrite decide_False.
Qed.

Lemma component_type_then_enter_witness :
  effects
    (TerminalComponentView.handleKeyPress Run.env
       (sessions (TerminalComponent.updateCommand "i-1" "" Run.streaming))
       "i-1" "Enter"
       (TerminalComponent.updateCommand "i-1" "" Run.streaming)) =
  effects Run.streaming ++ [WsSend 0 (CommandMsg "" "i-1")].
Proof.
  refine (proj1 (proj2
    (component_type_then_enter Run.env "i-1" ""
       (TerminalSession.mk "i-1" Run.web true
          [TerminalOutput.mk "1000" "system"
             (Some "Connected to web (10.0.0.1)") (Some "i-1")]
          "" (Some 0) false)
       0 Run.streaming _ _ _))).
  - vm_compute. reflexivity.
  - reflexivity.
  - reflexivity.
Defined.

(** ** The page of the single-instance view *)

(** X26.  The terminal page shows the terminal only when both query
    parameters are present and not empty, the inventory has loaded and holds
    an instance with the requested identifier.  The component then gets that
    one instance and the parsed [credentialId]; its effect registers a
    single, disconnected session under the requested identifier, and that
    session is the one pane on the screen. *)
Theorem terminal_page_hosts_one_session (parseInt : string → option Z)
    (instanceId credentialId : option string) (isLoading : bool)
    (instances insts : list EC2Instance.t) (cred : option Z) (w : World) :
  TerminalPage.TerminalPage parseInt instanceId credentialId isLoading
    instances = TerminalPage.Terminal insts cred →
  ∃ i c inst,
    instanceId = Some i ∧ i ≠ "" ∧ credentialId = Some c ∧ c ≠ "" ∧
    isLoading = false ∧
    inst ∈ instances ∧ EC2Instance.instanceId inst = i ∧
    insts = [inst] ∧ cred = parseInt c ∧
    sessions (TerminalComponent.initEffect insts w) =
      {[ i := TerminalSession.mk i inst false [] "" None false ]} ∧
    panels (TerminalComponentView.layout insts
              (sessions (TerminalComponent.initEffect insts w))) =
      [TerminalSession.mk i inst false [] "" None false].
Proof.
  unfold TerminalPage.TerminalPage.
  destruct instanceId as [i|]; simpl; [|done].
  case_decide as Hi; [done|].
  destruct credentialId as [c|]; simpl; [|done].
  case_decide as Hc; [done|].
  destruct isLoading; [done|].
  destruct (head _) as [inst|] eqn:Hhead; [|done].
  intros [= <- <-].
  assert (inst ∈ filter (λ inst0, EC2Instance.instanceId inst0 = i) instances)
    as Hin.
  { destruct (filter _ instances) as [|x l]; [done|].
    simpl in Hhead. injection Hhead as ->. apply list_elem_of_here. }
  apply list_elem_of_filter in Hin as [Hid Hin].
  exists i, c, inst. repeat (split; [done|]).
  cbn [foldl TerminalComponentView.layout panels].
  rewrite Hid, insert_empty. split; [done|].
  by rewrite lookup_singleton_eq.
Qed.

Lemma terminal_page_hosts_one_session_witness :
  ∃ i c inst,
    Some "i-2" = Some i ∧ i ≠ "" ∧ Some "7" = Some c ∧ c ≠ "" ∧
    false = false ∧
    inst ∈ [Run.web; Run.db] ∧ EC2Instance.instanceId inst = i ∧
    [Run.db] = [inst] ∧ Some 7%Z = (λ _, Some 7%Z) c ∧
    sessions (TerminalComponent.initEffect [Run.db] Run.started) =
      {[ i := TerminalSession.mk i inst false [] "" None false ]} ∧
    panels (TerminalComponentView.layout [Run.db]
              (sessions (TerminalComponent.initEffect [Run.db] Run.started)))
    = [TerminalSession.mk i inst false [] "" None false].
Proof.
  refine (terminal_page_hosts_one_session (λ _, Some 7%Z) (Some "i-2")
            (Some "7") false [Run.web; Run.db] [Run.db] (Some 7%Z)
            Run.started _).
  vm_compute. reflexivity.
Defined.

(** ** Running the launch effect again *)

(** X27.  Without an [instances] parameter in the URL, or while the
    inventory is empty, the launch effect does nothing at all. *)
Theorem initEffect_waits_for_parameter_and_inventory (env : Env)
    (ts : gmap string TerminalSession.t) (allInstances : list EC2Instance.t)
    (w : World) :
  params_instances env = None ∨ allInstances = [] →
  TerminalManagementPage.initEffect env ts allInstances w = w.
Proof.
  intros Hidle. unfold TerminalManagementPage.initEffect.
  rewrite bool_decide_eq_false_2; [done|]. intros [Hids Hall].
  destruct Hidle as [Hp | ->]; [|simpl in Hall; lia].
  unfold TerminalManagementPage.instanceIds in Hids. rewrite Hp in Hids.
  simpl in Hids. lia.
Qed.

Lemma initEffect_waits_for_parameter_and_inventory_witness :
  TerminalManagementPage.initEffect Run.env (sessions Run.streaming) []
    Run.streaming = Run.streaming.
Proof.
  refine (initEffect_waits_for_parameter_and_inventory Run.env
            (sessions Run.streaming) [] Run.streaming _).
  right. reflexivity.
Defined.

Lemma openSockets_nil (m : gmap string TerminalSession.t) :
  (∀ i s, m !! i = Some s → TerminalSession.ws s = None) →
  openSockets m = [].
Proof.
  intros Hm. destruct (openSockets m) as [|h l] eqn:Hopen; [done|].
  assert (h ∈ openSockets m) as Hin by (rewrite Hopen; apply list_elem_of_here).
  apply openSockets_elem_of in Hin as (i & s & Hs & Hws).
  by rewrite (Hm i s Hs) in Hws.
Qed.

(** X28.  When the launch effect runs -- again, too, after the inventory
    changed -- it replaces the registry: every session registered afterwards
    is a fresh one, disconnected, without socket and with an empty log, so
    no session holds a socket any more.  The sockets that sessions held
    before are not closed: the effect calls [close()] on nothing. *)
Theorem initEffect_resets_without_closing (env : Env)
    (ts : gmap string TerminalSession.t) (allInstances : list EC2Instance.t)
    (p : string) (w : World) :
  params_instances env = Some p →
  allInstances ≠ [] →
  let w' := TerminalManagementPage.initEffect env ts allInstances w in
  (∀ i s, sessions w' !! i = Some s →
          TerminalSession.ws s = None ∧
          TerminalSession.isConnected s = false ∧
          TerminalSession.output s = []) ∧
  openSockets (sessions w') = [] ∧
  closeCalls (effects w') = closeCalls (effects w) ∧
  sockets w' = sockets w.
Proof.
  intros Hp Hall w'.
  assert (∀ i s, sessions w' !! i = Some s →
                 TerminalSession.ws s = None ∧
                 TerminalSession.isConnected s = false ∧
                 TerminalSession.output s = []) as Hfresh.
  { intros i s. subst w'.
    rewrite (initEffect_sessions env ts allInstances p w Hp Hall).
    intros Hs. by apply initialSessions_lookup_Some in Hs as (? & _ & _ & ->). }
  split; [done|]. split.
  - apply openSockets_nil. intros i s Hs. by destruct (Hfresh i s Hs).
  - subst w'. rewrite (initEffect_active env ts allInstances p w Hp Hall).
    simpl. split; [|done]. rewrite closeCalls_app.
    rewrite <- (app_nil_r (closeCalls (effects w))) at 2. f_equal.
    induction (TerminalManagementPage.selectedInstances env allInstances)
      as [|x l IH]; [done|]. exact IH.
Qed.

Lemma initEffect_resets_without_closing_witness :
  closeCalls
    (effects (TerminalManagementPage.initEffect Run.env
                (sessions Run.streaming) [Run.web; Run.db] Run.streaming)) =
  closeCalls (effects Run.streaming).
Proof.
  refine (proj1 (proj2 (proj2
    (initEffect_resets_without_closing Run.env (sessions Run.streaming)
       [Run.web; Run.db] "i-1,i-2" Run.streaming _ _)))).
  - reflexivity.
  - discriminate.
Defined.

(** ** Leaving the view *)

Lemma length_filter_fmap {A B : Type} (f : A → B) (P : B → Prop)
    `{!∀ y, Decision (P y)} (l : list A) :
  length (filter P (f <$> l)) = length (filter (λ x, P (f x)) l).
Proof.
  induction l as [|x l IH]; [done|]. rewrite fmap_cons, !filter_cons.
  destruct (decide (P (f x))); simpl; by rewrite IH.
Qed.

(** X29.  In every reachable state, [exitTerminals] run in the current
    render calls [close()] on as many sockets as there are connected panes,
    and on no socket twice: each connected pane has its own socket closed
    once. *)
Theorem exit_closes_each_connected_pane_once (env : Env) (w : World) :
  reachable env w →
  let w' := TerminalManagementPage.exitTerminals (sessions w) w in
  ∃ closed,
    closeCalls (effects w') = closeCalls (effects w) ++ closed ∧
    NoDup closed ∧
    length closed =
      length (filter (λ s, TerminalSession.isConnected s = true)
                     (TerminalManagementPageView.sessionsOf (sessions w))) ∧
    (∀ h, h ∈ closed ↔
          ∃ i s, sessions w !! i = Some s ∧ TerminalSession.ws s = Some h).
Proof.
  intros Hreach w'. exists (openSockets (sessions w)).
  split; [|split; [|split]].
  - subst w'. unfold TerminalManagementPage.exitTerminals.
    rewrite !andThen_apply, forEach_closeSocket. simpl.
    rewrite !closeCalls_app, closeCalls_closes. simpl.
    by rewrite !app_nil_r.
  - by apply (reachable_openSockets_NoDup env).
  - unfold openSockets, TerminalManagementPageView.sessionsOf.
    rewrite length_omap_filter, length_filter_fmap. f_equal.
    apply filter_ext_in. intros [i s] Hin. simpl.
    apply elem_of_map_to_list in Hin. symmetry.
    exact (reachable_sessionsAll env _ coherent_invariant w Hreach i s Hin).
  - apply openSockets_elem_of.
Qed.

Lemma exit_closes_each_connected_pane_once_witness :
  ∃ closed,
    closeCalls (effects (TerminalManagementPage.exitTerminals
                           (sessions Run.streaming) Run.streaming)) =
      closeCalls (effects Run.streaming) ++ closed ∧
    NoDup closed ∧
    length closed =
      length (filter (λ s, TerminalSession.isConnected s = true)
                     (TerminalManagementPageView.sessionsOf
                        (sessions Run.streaming))) ∧
    (∀ h, h ∈ closed ↔
          ∃ i s, sessions Run.streaming !! i = Some s ∧
                 TerminalSession.ws s = Some h).
Proof.
  exact (exit_closes_each_connected_pane_once Run.env Run.streaming
           streaming_reachable).
Defined.

(** ** The sockets the page constructs *)

Section Constructs.
Context (env : Env) (Q : WebSocket.t → Prop).
Import TerminalManagementPage.

Lemma constructsOnly_same (a : Action) :
  (∀ w, sockets (a w) = sockets w) → constructsOnly Q a.
Proof. intros Ha w. exists []. by rewrite app_nil_r, Ha. Qed.

Lemma constructsOnly_andThen (a b : Action) :
  constructsOnly Q a → constructsOnly Q b → constructsOnly Q (a >>> b).
Proof.
  intros Ha Hb w. destruct (Ha w) as (l1 & H1 & Q1).
  destruct (Hb (a w)) as (l2 & H2 & Q2). exists (l1 ++ l2).
  rewrite andThen_apply, H2, H1, app_assoc. split; [done|].
  by apply Forall_app.
Qed.

Lemma constructsOnly_forEachArr {A : Type} (f : A → Action) (l : list A) :
  (∀ x, constructsOnly Q (f x)) → constructsOnly Q (forEachArr f l).
Proof.
  intros Hf. induction l as [|x l IH] using rev_ind.
  - by apply constructsOnly_same.
  - intros w. unfold forEachArr. rewrite foldl_snoc.
    apply (constructsOnly_andThen (forEachArr f l) (f x) IH (Hf x) w).
Qed.


Lemma constructsOnly_closeSocket s : constructsOnly Q (closeSocket s).
Proof.
  apply constructsOnly_same. intros w. unfold closeSocket.
  by destruct (TerminalSession.ws s).
Qed.



End Constructs.



